(** * The per-task runner of the node daemon (h_server/task/task_runner.py)

    A shallow embedding of [TaskRunner], [InferenceTaskRunner] and
    [MockTaskRunner]: the durable task state, the scoped state-context,
    the chain-call coordinator, the five event handlers, [init], [run]
    and its drain.

    Every [await] on an external collaborator (contract client, relay,
    worker, event queue) is answered by an environment that sees the
    history of the run; every such call is also appended to a trace, so
    that the order of submissions, receipts and persisted snapshots can be
    stated.  The state cache is part of the modelled world: a finite map
    from task ids to snapshots, whose [has], [load] and [dump] do not fail.

    What is not represented: the two [Condition] objects (taking their
    locks and notifying waiters), log lines other than those of the
    [except] clauses, and wall-clock time apart from the one reading of
    the clock in [run]; the expiry of a [fail_after] budget shows as a
    cancellation answered by the environment inside the scope.  Handlers
    are run one at a time (see the receive loop below). *)

From stdpp Require Import base tactics option list numbers strings gmap.
From Stdlib Require Import QArith.

Close Scope Q_scope.
Local Open Scope string_scope.
Local Open Scope list_scope.

(** ** Data model *)

Definition bytes := list Byte.byte.

(** Modelled from the spec: [models.TaskStatus] is declared in
    h_server/models, which is not part of the sources at hand; the six
    statuses are those of section 3 of the specification, in protocol
    order. *)
Inductive TaskStatus :=
| Pending | Executing | ResultUploaded | Disclosed | Success | Aborted.

Global Instance TaskStatus_eq_dec : EqDecision TaskStatus.
Proof. solve_decision. Defined.

(** Modelled from the spec: [models.TaskState] (h_server/models, not part
    of the sources at hand), with the fields of section 3. *)
Record TaskState := mkTaskState {
  task_id : Z;
  round : Z;
  timeout : Z;
  status : TaskStatus;
  result : bytes;
  disclosed : bool;
  files : list string;
  waiting_tx_method : string;
  waiting_tx_hash : bytes;
}.

Definition set_round (v : Z) (s : TaskState) : TaskState :=
  mkTaskState (task_id s) v (timeout s) (status s) (result s) (disclosed s)
              (files s) (waiting_tx_method s) (waiting_tx_hash s).
Definition set_timeout (v : Z) (s : TaskState) : TaskState :=
  mkTaskState (task_id s) (round s) v (status s) (result s) (disclosed s)
              (files s) (waiting_tx_method s) (waiting_tx_hash s).
Definition set_status (v : TaskStatus) (s : TaskState) : TaskState :=
  mkTaskState (task_id s) (round s) (timeout s) v (result s) (disclosed s)
              (files s) (waiting_tx_method s) (waiting_tx_hash s).
Definition set_result (v : bytes) (s : TaskState) : TaskState :=
  mkTaskState (task_id s) (round s) (timeout s) (status s) v (disclosed s)
              (files s) (waiting_tx_method s) (waiting_tx_hash s).
Definition set_disclosed (v : bool) (s : TaskState) : TaskState :=
  mkTaskState (task_id s) (round s) (timeout s) (status s) (result s) v
              (files s) (waiting_tx_method s) (waiting_tx_hash s).
Definition set_files (v : list string) (s : TaskState) : TaskState :=
  mkTaskState (task_id s) (round s) (timeout s) (status s) (result s)
              (disclosed s) v (waiting_tx_method s) (waiting_tx_hash s).
Definition set_waiting_tx_method (v : string) (s : TaskState) : TaskState :=
  mkTaskState (task_id s) (round s) (timeout s) (status s) (result s)
              (disclosed s) (files s) v (waiting_tx_hash s).
Definition set_waiting_tx_hash (v : bytes) (s : TaskState) : TaskState :=
  mkTaskState (task_id s) (round s) (timeout s) (status s) (result s)
              (disclosed s) (files s) (waiting_tx_method s) v.

(** Modelled from the spec: [models.ChainTask]; only the fields the runner
    reads ([id] and [timeout]) are kept. *)
Record ChainTask := mkChainTask {
  chain_id : Z;
  chain_timeout : Z;
}.

(** Modelled from the spec: the task description served by the relay. *)
Record RelayTask := mkRelayTask {
  relay_task_id : Z;
  relay_task_args : string;
}.

(** Modelled from the spec: the tagged events of section 3.  Every event
    carries the task id; the ack id travels next to the event in the
    runner's deque. *)
Inductive TaskEvent :=
| TaskCreated (event_task_id : Z) (event_round : Z)
| TaskResultReady (event_task_id : Z) (hashes : list string)
                  (event_files : list string)
| TaskResultCommitmentsReady (event_task_id : Z)
| TaskSuccess (event_task_id : Z) (result_node : string)
| TaskAborted (event_task_id : Z).

Definition kind (event : TaskEvent) : string :=
  match event with
  | TaskCreated _ _ => "TaskCreated"
  | TaskResultReady _ _ _ => "TaskResultReady"
  | TaskResultCommitmentsReady _ => "TaskResultCommitmentsReady"
  | TaskSuccess _ _ => "TaskSuccess"
  | TaskAborted _ => "TaskAborted"
  end.

(** Python exceptions the runner raises, catches or lets through. *)
Inductive exn :=
| TxRevertedError (reason : string)
| ValueError (msg : string)
| AssertionError (msg : string)
| TimeoutError
| Cancelled
| TaskInvalid
| RelayError (message : string)
| KeyError
| OtherError (name : string).

(** Keyword arguments of a contract call. *)
Inductive pyval :=
| VInt (n : Z)
| VBytes (b : bytes).

Definition Kwargs := list (string * pyval).

(** The waiter a contract call returns, or [TxWaiter(w3, method, tx_hash)]. *)
Record TxWaiter := mkTxWaiter {
  waiter_method : string;
  tx_hash : bytes;
}.

(** ** External calls

    One constructor per call that leaves the runner.  [ScopeEnter] and
    [ScopeExit] bracket a [fail_after(delay, shield)] block. *)
Inductive IO :=
| CacheDump (st : TaskState)
| ChainGetTask (tid : Z)
| ChainCall (method : string) (kwargs : Kwargs)
| TxWait (method : string) (h : bytes)
| ChainCancelTask (tid : Z)
| QueueAck (ack_id : Z)
| QueueNoAck (ack_id : Z)
| QueuePut (event : TaskEvent)
| RelayGetTask (tid : Z)
| RelayUpload (tid : Z) (fs : list string)
| Sleep (seconds : Z)
| CelerySendTask (name : string) (tid : Z)
| LocalTask (name : string) (tid : Z)
| Unwatch (watch_id : Z)
| DeleteResultFiles (fs : list string)
| LogError (e : exn)
| LogDebug (e : exn)
| ScopeEnter (delay : Z) (shield : bool)
| ScopeExit.

(** The collaborators.  Each answer may depend on everything that happened
    before (the trace at the time of the call) and on the arguments.  An
    answer [inl e], or [Some e], is the exception the awaited call raises;
    [Cancelled] among them is a cancellation delivered at that await.

    [chain_call] answers a method of the task contract with the hash of the
    submitted transaction, [tx_wait] answers [waiter.wait()].
    [make_result_commitments] (task/utils.py, not part of the sources at
    hand) answers with (result, commitment, nonce); the nonce is random, so
    the answer may differ from call to call.  [retry_attempts] is the
    number of retries of the relay that fit into [stop_after_delay(1800)]. *)
Record Env := mkEnv {
  time_now : list IO -> Q;
  chain_get_task : list IO -> Z -> exn + ChainTask;
  chain_call : list IO -> string -> Kwargs -> exn + bytes;
  tx_wait : list IO -> string -> bytes -> option exn;
  chain_cancel_task : list IO -> Z -> option exn;
  relay_get_task : list IO -> Z -> exn + RelayTask;
  relay_upload_task_result : list IO -> Z -> list string -> option exn;
  celery_send_task : list IO -> string -> Z -> option exn;
  local_task : list IO -> string -> Z -> exn + (list string * list string);
  make_result_commitments : list IO -> list string -> bytes * bytes * bytes;
  queue_ack : list IO -> Z -> option exn;
  queue_no_ack : list IO -> Z -> option exn;
  queue_put : list IO -> TaskEvent -> option exn;
  delete_result_files : list IO -> list string -> option exn;
  retry_attempts : nat;
}.

(** What the constructor fixes for the life of a runner. *)
Record Config := mkConfig {
  self_task_id : Z;
  self_task_name : string;
  self_distributed : bool;
  account : string;
  _commitment_watch_id : Z;
  _success_watch_id : Z;
  _aborted_watch_id : Z;
}.

(** Modelled from the spec: [TaskStateCache] (task/state_cache.py) is not
    part of the sources at hand; by section 6 it is a durable key/value
    store of task states keyed by task id, with [has], [load] and an
    atomic [dump]. *)
Abbreviation TaskStateCache := (gmap Z TaskState).

(** The mutable part of a runner, the state cache, and the trace. *)
Record Runner := mkRunner {
  _state : option TaskState;
  _deque : list (Z * TaskEvent);
  _cleaned : bool;
  cache : TaskStateCache;
  trace : list IO;
}.

Definition with_state (v : option TaskState) (w : Runner) : Runner :=
  mkRunner v (_deque w) (_cleaned w) (cache w) (trace w).
Definition with_deque (v : list (Z * TaskEvent)) (w : Runner) : Runner :=
  mkRunner (_state w) v (_cleaned w) (cache w) (trace w).
Definition with_cleaned (v : bool) (w : Runner) : Runner :=
  mkRunner (_state w) (_deque w) v (cache w) (trace w).
Definition with_cache (v : TaskStateCache) (w : Runner) : Runner :=
  mkRunner (_state w) (_deque w) (_cleaned w) v (trace w).
Definition emit (e : IO) (w : Runner) : Runner :=
  mkRunner (_state w) (_deque w) (_cleaned w) (cache w) (trace w ++ [e]).

(** ** The monad of runner code

    A coroutine of the runner either returns, raises, or stays suspended
    ([Blocked]): it waits on a condition that nothing in the same run of
    the model will signal. *)
Inductive Res (A : Type) :=
| Done (a : A)
| Raised (e : exn)
| Blocked.
Arguments Done {A} a.
Arguments Raised {A} e.
Arguments Blocked {A}.

Definition M (A : Type) : Type := Runner -> Res A * Runner.

Definition ret {A} (a : A) : M A := fun w => (Done a, w).
Definition raise {A} (e : exn) : M A := fun w => (Raised e, w).
Definition block {A} : M A := fun w => (Blocked, w).
Definition bind {A B} (m : M A) (k : A -> M B) : M B :=
  fun w =>
    match m w with
    | (Done a, w') => k a w'
    | (Raised e, w') => (Raised e, w')
    | (Blocked, w') => (Blocked, w')
    end.

Declare Scope runner_scope.
Delimit Scope runner_scope with runner.
Notation "'let*' x ':=' m 'in' k" := (bind m (fun x => k))
  (at level 10, x name, m at level 100, k at level 200) : runner_scope.
Notation "m '>>' k" := (bind m (fun _ => k))
  (at level 90, right associativity) : runner_scope.
Local Open Scope runner_scope.

(** [try: m  except ...: h e].  [h e = None] when no clause matches [e]. *)
Definition try_except {A} (m : M A) (h : exn -> option (M A)) : M A :=
  fun w =>
    match m w with
    | (Raised e, w') =>
        match h e with
        | Some handler => handler w'
        | None => (Raised e, w')
        end
    | other => other
    end.

(** [try: m  finally: fin].  An exception of [fin] replaces the outcome of
    [m]; a suspended [m] never reaches [fin]. *)
Definition try_finally {A} (m : M A) (fin : M unit) : M A :=
  fun w =>
    match m w with
    | (Blocked, w') => (Blocked, w')
    | (r, w') =>
        match fin w' with
        | (Done _, w'') => (r, w'')
        | (Raised e, w'') => (Raised e, w'')
        | (Blocked, w'') => (Blocked, w'')
        end
    end.

(** [with fail_after(delay, shield): body].  Inside a shielded scope a
    cancellation can only come from the scope's own deadline, and leaves
    the block as [TimeoutError]. *)
Definition fail_after {A} (delay : Z) (shield : bool) (body : M A) : M A :=
  fun w =>
    match body (emit (ScopeEnter delay shield) w) with
    | (Blocked, w') => (Blocked, w')
    | (Raised Cancelled, w') =>
        (Raised (if shield then TimeoutError else Cancelled), emit ScopeExit w')
    | (r, w') => (r, emit ScopeExit w')
    end.

(** [for x in xs: body x] *)
Fixpoint for_each {A} (xs : list A) (body : A -> M unit) : M unit :=
  match xs with
  | [] => ret tt
  | x :: rest => body x >> for_each rest body
  end.

(** Awaiting a collaborator: the call is appended to the trace and the
    environment answers from the trace before the call. *)
Definition await {A} (call : IO) (answer : list IO -> exn + A) : M A :=
  fun w =>
    match answer (trace w) with
    | inl e => (Raised e, emit call w)
    | inr a => (Done a, emit call w)
    end.

Definition outcome (o : option exn) : exn + unit :=
  match o with
  | Some e => inl e
  | None => inr tt
  end.

(** A call that only leaves a mark in the trace. *)
Definition tell (e : IO) : M unit := fun w => (Done tt, emit e w).

(** ["needle" in hay] *)
Fixpoint contains (needle hay : string) : bool :=
  String.prefix needle hay ||
  match hay with
  | EmptyString => false
  | String _ rest => contains needle rest
  end.

(** ** class TaskRunner *)

Module TaskRunner.

(** The abstract methods of [TaskRunner].  A handler receives the fields
    of its event. *)
Record Impl := mkImpl {
  task_created : Z -> Z -> M (option bool);
  result_ready : Z -> list string -> list string -> M unit;
  commitment_ready : Z -> M unit;
  task_success : Z -> string -> M unit;
  task_aborted : Z -> M unit;
  cleanup : M unit;
  get_task : M (option ChainTask);
  cancel_task : M unit;
}.

Section TaskRunner.
Variable env : Env.
Variable cfg : Config.
Variable impl : Impl.

(** The [state] property: getter, setter and deleter, each with its
    assertion. *)
Definition state : M TaskState :=
  fun w =>
    match _state w with
    | Some s => (Done s, w)
    | None =>
        (Raised (AssertionError "The task runner's state has not been set."), w)
    end.

Definition state_setter (s : TaskState) : M unit :=
  fun w =>
    match _state w with
    | None => (Done tt, with_state (Some s) w)
    | Some _ =>
        (Raised (AssertionError "The task runner's state has already been set."), w)
    end.

Definition state_deleter : M unit :=
  fun w =>
    match _state w with
    | Some _ => (Done tt, with_state None w)
    | None =>
        (Raised (AssertionError "The task runner's state has not been set."), w)
    end.

(** [self.state.field = v] *)
Definition update_state (f : TaskState -> TaskState) : M unit :=
  let* s := state in
  fun w => (Done tt, with_state (Some (f s)) w).

(** [await self.cache.dump(self.state)]: a snapshot of the state is stored
    under its task id. *)
Definition cache_dump : M unit :=
  let* s := state in
  fun w =>
    (Done tt, emit (CacheDump s) (with_cache (<[task_id s := s]> (cache w)) w)).

(** [state_context]: whatever way the block is left, the state is dumped
    under a shielded 10-second scope. *)
Definition state_context {A} (body : M A) : M A :=
  try_finally body (fail_after 10 true cache_dump).

(** [wait_for_status]: returns at once when the status is the awaited
    one, and stays suspended on the condition otherwise. *)
Definition wait_for_status (s : TaskStatus) : M unit :=
  let* st := state in
  if bool_decide (status st = s) then ret tt else block.

Definition fresh_state : TaskState :=
  mkTaskState (self_task_id cfg) 0 0 Pending [] false [] "" [].

(** The first block of [init]: load the state from the cache, or create
    it.  Returns the value of [need_dump]. *)
Definition load_or_create (w : Runner) : bool * Runner :=
  match _state w with
  | Some _ => (false, w)
  | None =>
      match cache w !! self_task_id cfg with
      | Some st => (false, with_state (Some st) w)
      | None => (true, with_state (Some fresh_state) w)
      end
  end.

Definition is_terminal (s : TaskStatus) : bool :=
  bool_decide (s = Success) || bool_decide (s = Aborted).

(** The rest of the [try] block of [init]; returns the result together
    with the final value of [need_dump]. *)
Definition init_checks (need_dump : bool) : M (bool * bool) :=
  let* st := state in
  if is_terminal (status st) then ret (false, need_dump)
  else
    let* task := get_task impl in
    match task with
    | None =>
        update_state (set_status Aborted) >> ret (false, true)
    | Some task =>
        let* st := state in
        if bool_decide (timeout st <> chain_timeout task) then
          update_state (set_timeout (chain_timeout task)) >> ret (true, true)
        else ret (true, need_dump)
    end.

(** The [finally] block of [init]. *)
Definition init_finally (need_dump : bool) : M unit :=
  fun w =>
    match _state w with
    | Some _ => if need_dump then cache_dump w else (Done tt, w)
    | None => (Done tt, w)
    end.

(** [init].  [need_dump] is a local variable of the source: an exception
    can only leave the [try] block before the later assignments to it,
    so the [finally] block then sees the value [load_or_create] left. *)
Definition init : M bool :=
  fun w =>
    let '(need_dump, w1) := load_or_create w in
    match init_checks need_dump w1 with
    | (Done (r, nd), w2) => try_finally (ret r) (init_finally nd) w2
    | (Raised e, w2) => try_finally (raise e) (init_finally need_dump) w2
    | (Blocked, w2) => (Blocked, w2)
    end.

(** [process_event] dispatches on [event.kind]; the [isinstance]
    assertions hold by construction of [kind]. *)
Definition process_event (event : TaskEvent) : M bool :=
  if String.eqb (kind event) "TaskCreated" then
    match event with
    | TaskCreated tid r => task_created impl tid r >> ret false
    | _ => raise (AssertionError "")
    end
  else if String.eqb (kind event) "TaskResultReady" then
    match event with
    | TaskResultReady tid hs fs => result_ready impl tid hs fs >> ret false
    | _ => raise (AssertionError "")
    end
  else if String.eqb (kind event) "TaskResultCommitmentsReady" then
    match event with
    | TaskResultCommitmentsReady tid => commitment_ready impl tid >> ret false
    | _ => raise (AssertionError "")
    end
  else if String.eqb (kind event) "TaskSuccess" then
    match event with
    | TaskSuccess tid node => task_success impl tid node >> ret true
    | _ => raise (AssertionError "")
    end
  else if String.eqb (kind event) "TaskAborted" then
    match event with
    | TaskAborted tid => task_aborted impl tid >> ret true
    | _ => raise (AssertionError "")
    end
  else raise (ValueError "Unknown event kind").

Definition deque_append (ack_id : Z) (event : TaskEvent) : M unit :=
  fun w => (Done tt, with_deque (_deque w ++ [(ack_id, event)]) w).

(** [_run_event]: returns whether it asked the task group to cancel. *)
Definition _run_event (ack_id : Z) (event : TaskEvent) : M bool :=
  try_except
    (let* finished := process_event event in
     await (QueueAck ack_id) (fun t => outcome (queue_ack env t ack_id)) >>
     ret finished)
    (fun e =>
       match e with
       | Cancelled => Some (deque_append ack_id event >> raise Cancelled)
       | _ => Some (deque_append ack_id event >> raise e)
       end).

(** [send] and the body of [recv] once the deque is not empty. *)
Definition send (ack_id : Z) (event : TaskEvent) : M unit :=
  deque_append ack_id event.

Definition recv : M (Z * TaskEvent) :=
  fun w =>
    match _deque w with
    | [] => (Blocked, w)
    | x :: rest => (Done x, with_deque rest w)
    end.

(** *** The receive loop of [run]

    [create_task_group] runs the handlers as concurrent tasks.  Here a
    schedule lists, in order, what happens around the loop; a started
    handler runs until it returns, raises, or suspends on its status
    barrier (the first statement of every handler that has one), and a
    suspended handler runs again from its barrier when the schedule
    resumes it.  Interleavings inside a handler are not represented: the
    deadline and a cancellation from outside arrive between handlers, and
    find the other handlers suspended on their barriers. *)
Inductive Sched :=
| SSend (ack_id : Z) (event : TaskEvent)  (* the dispatcher calls [send] *)
| SRecv                                   (* [recv] returns, handler starts *)
| SResume (k : nat)                       (* a suspended handler is woken *)
| SDeadline                               (* [fail_after(delay)] expires *)
| SCancel.                                (* [run] is cancelled from outside *)

Inductive LoopCtl :=
| Continue (suspended : list (Z * TaskEvent))
| Exited
| Failed (e : exn).

(** Cancelling the task group: every suspended handler gets the
    cancellation inside [_run_event], which puts its event back. *)
Definition cancel_suspended (suspended : list (Z * TaskEvent)) : M unit :=
  for_each suspended (fun '(ack_id, event) => deque_append ack_id event).

(** What the loop does with the outcome of a handler that ran. *)
Definition after_handler (ack_id : Z) (event : TaskEvent)
    (others : list (Z * TaskEvent)) (stay : list (Z * TaskEvent))
    (out : Res bool * Runner) : LoopCtl * Runner :=
  match out with
  | (Blocked, w) => (Continue stay, w)
  | (Done false, w) => (Continue others, w)
  | (Done true, w) => (Exited, snd (cancel_suspended others w))
  | (Raised e, w) => (Failed e, snd (cancel_suspended others w))
  end.

Definition loop_step (s : Sched) (suspended : list (Z * TaskEvent))
    (w : Runner) : LoopCtl * Runner :=
  match s with
  | SSend ack_id event => (Continue suspended, snd (send ack_id event w))
  | SRecv =>
      match recv w with
      | (Done (ack_id, event), w') =>
          after_handler ack_id event suspended
            (suspended ++ [(ack_id, event)]) (_run_event ack_id event w')
      | (_, w') => (Continue suspended, w')
      end
  | SResume k =>
      match suspended !! k with
      | Some (ack_id, event) =>
          after_handler ack_id event (delete k suspended) suspended
            (_run_event ack_id event w)
      | None => (Continue suspended, w)
      end
  | SDeadline => (Failed TimeoutError, snd (cancel_suspended suspended w))
  | SCancel => (Failed Cancelled, snd (cancel_suspended suspended w))
  end.

Fixpoint loop_run (sched : list Sched) (suspended : list (Z * TaskEvent))
    (w : Runner) : LoopCtl * Runner :=
  match sched with
  | [] => (Continue suspended, w)
  | s :: rest =>
      match loop_step s suspended w with
      | (Continue suspended', w') => loop_run rest suspended' w'
      | stop => stop
      end
  end.

(** [with fail_after(delay, shield=False): async with create_task_group()
    as tg: while True: ...].  When the schedule ends the loop is still
    waiting in [recv]. *)
Definition run_loop (sched : list Sched) : M unit :=
  fun w =>
    match loop_run sched [] w with
    | (Continue _, w') => (Blocked, w')
    | (Exited, w') => (Done tt, w')
    | (Failed e, w') => (Raised e, w')
    end.

(** The [try] block of [run]. *)
Definition run_try (sched : list Sched) : M unit :=
  let* success := init in
  if negb success then ret tt
  else
    let* st := state in
    fun w =>
      let delay := (inject_Z (timeout st) - time_now env (trace w))%Q in
      if Qle_bool delay 0 then (Raised TimeoutError, w)
      else run_loop sched w.

(** The [except] clauses of [run]. *)
Definition run_except (e : exn) : option (M unit) :=
  match e with
  | Cancelled => Some (raise Cancelled)
  | TimeoutError =>
      Some (state_context (update_state (set_status Aborted)) >>
            cancel_task impl)
  | _ => None
  end.

(** The [finally] block of [run]: the drain. *)
Definition drain : M unit :=
  fail_after 10 true
    (fun w =>
       if match _state w with
          | Some st =>
              bool_decide (status st = Aborted) ||
              bool_decide (status st = Success)
          | None => false
          end
       then
         (for_each (_deque w)
            (fun '(ack_id, _) =>
               await (QueueAck ack_id) (fun t => outcome (queue_ack env t ack_id))) >>
          cleanup impl) w
       else
         for_each (_deque w)
           (fun '(ack_id, _) =>
              await (QueueNoAck ack_id)
                    (fun t => outcome (queue_no_ack env t ack_id))) w).

Definition run (sched : list Sched) : M unit :=
  try_finally (try_except (run_try sched) run_except) drain.

End TaskRunner.
End TaskRunner.

(** ** class InferenceTaskRunner *)

Module InferenceTaskRunner.
Import TaskRunner.
Section InferenceTaskRunner.
Variable env : Env.
Variable cfg : Config.

(** A method of [self.contracts.task_contract]: submits the transaction
    and returns its waiter. *)
Definition contract_func (method : string) (kwargs : Kwargs) : M TxWaiter :=
  let* h := await (ChainCall method kwargs)
                  (fun t => chain_call env t method kwargs) in
  ret (mkTxWaiter method h).

Definition submit_task_result_commitment := contract_func "submitTaskResultCommitment".
Definition disclose_task_result := contract_func "discloseTaskResult".
Definition report_results_uploaded := contract_func "reportResultsUploaded".
Definition report_task_error := contract_func "reportTaskError".

(** [await waiter.wait()] *)
Definition waiter_wait (waiter : TxWaiter) : M unit :=
  await (TxWait (waiter_method waiter) (tx_hash waiter))
        (fun t => outcome (tx_wait env t (waiter_method waiter) (tx_hash waiter))).

(** [_call_task_contract_method], the chain-call coordinator. *)
Definition _call_task_contract_method (method : string) (kwargs : Kwargs)
    : M unit :=
  let* st := state in
  let* waiter :=
    if (String.length (waiting_tx_method st) =? 0)%nat
       && (length (waiting_tx_hash st) =? 0)%nat
    then
      let* func :=
        if String.eqb method "submitTaskResultCommitment" then
          ret submit_task_result_commitment
        else if String.eqb method "discloseTaskResult" then
          ret disclose_task_result
        else if String.eqb method "reportResultsUploaded" then
          ret report_results_uploaded
        else if String.eqb method "reportTaskError" then
          ret report_task_error
        else raise (ValueError "Unsupported task contract method") in
      func kwargs
    else if String.eqb (waiting_tx_method st) method
            && (0 <? length (waiting_tx_hash st))%nat
    then ret (mkTxWaiter (waiting_tx_method st) (waiting_tx_hash st))
    else raise (ValueError "Error state waiting tx method") in
  waiter_wait waiter >>
  state_context
    (update_state (set_waiting_tx_hash []) >>
     update_state (set_waiting_tx_method "")).

Definition _report_error : M unit :=
  state_context (update_state (set_status Aborted)) >>
  try_except
    (let* st := state in
     _call_task_contract_method "reportTaskError"
       [("task_id", VInt (self_task_id cfg)); ("round", VInt (round st))])
    (fun e =>
       match e with
       | TxRevertedError _ => Some (tell (LogError e))
       | _ => None
       end).

Definition get_task : M (option ChainTask) :=
  let* task := await (ChainGetTask (self_task_id cfg))
                     (fun t => chain_get_task env t (self_task_id cfg)) in
  if (chain_id task =? 0)%Z || negb (chain_id task =? self_task_id cfg)%Z
  then ret None
  else ret (Some task).

Definition cancel_task : M unit :=
  try_except
    (await (ChainCancelTask (self_task_id cfg))
           (fun t => outcome (chain_cancel_task env t (self_task_id cfg))))
    (fun e =>
       match e with
       | TxRevertedError _ => Some (tell (LogError e))
       | Cancelled => Some (raise Cancelled)
       | _ => Some (tell (LogDebug e))
       end).

Definition should_retry (e : exn) : bool :=
  match e with
  | RelayError message =>
      contains "Task not found" message || contains "Task not ready" message
  | _ => false
  end.

(** The retried [get_task] of [task_created].  [attempts] is the number
    of retries that fit before [stop_after_delay(1800)]; the [n]-th wait
    is one second for the first thirty and ten seconds afterwards; the
    last exception is raised again. *)
Fixpoint relay_get_task_retry (attempts n : nat) (tid : Z) : M RelayTask :=
  fun w =>
    match await (RelayGetTask tid) (fun t => relay_get_task env t tid) w with
    | (Raised e, w') =>
        if should_retry e then
          match attempts with
          | O => (Raised e, w')
          | S k =>
              (tell (LogError e) >>
               tell (Sleep (if (n <? 30)%nat then 1 else 10)) >>
               relay_get_task_retry k (S n) tid) w'
          end
        else (Raised e, w')
    | other => other
    end.

Definition run_distributed_task (task : RelayTask) : M unit :=
  await (CelerySendTask (self_task_name cfg) (relay_task_id task))
        (fun t => outcome (celery_send_task env t (self_task_name cfg)
                                            (relay_task_id task))).

(** Runs the task function, lists the output directory and hashes the
    images: the event to enqueue. *)
Definition run_local_task (task : RelayTask) : M TaskEvent :=
  let* out := await (LocalTask (self_task_name cfg) (relay_task_id task))
                    (fun t => local_task env t (self_task_name cfg)
                                         (relay_task_id task)) in
  ret (TaskResultReady (self_task_id cfg) (fst out) (snd out)).

Definition task_created (event_task_id event_round : Z) : M (option bool) :=
  wait_for_status Pending >>
  state_context (update_state (set_round event_round)) >>
  let* task := relay_get_task_retry (retry_attempts env) 0 event_task_id in
  if self_distributed cfg then
    run_distributed_task task >>
    state_context (update_state (set_status Executing)) >>
    ret None
  else
    try_except
      (let* next_event := run_local_task task in
       state_context (update_state (set_status Executing)) >>
       await (QueuePut next_event) (fun t => outcome (queue_put env t next_event)) >>
       ret None)
      (fun e =>
         match e with
         | TaskInvalid =>
             Some (tell (LogError e) >>
                   fail_after 60 true _report_error >>
                   ret (Some true))
         | _ => None
         end).

(** [result_ready].  The inner computation returns [true] when the
    source leaves the handler through its [return]. *)
Definition result_ready (event_task_id : Z) (hashes event_files : list string)
    : M unit :=
  wait_for_status Executing >>
  state_context
    (let* st := state in
     let* returned :=
       if (length (result st) =? 0)%nat then
         fun w =>
           let '(result, commitment, nonce) :=
             make_result_commitments env (trace w) hashes in
           (let* returned :=
              try_except
                (_call_task_contract_method "submitTaskResultCommitment"
                   [("task_id", VInt (self_task_id cfg));
                    ("round", VInt (round st));
                    ("commitment", VBytes commitment);
                    ("nonce", VBytes nonce)] >>
                 ret false)
                (fun e =>
                   match e with
                   | TxRevertedError reason =>
                       Some (if contains "Task is aborted" reason
                             then _report_error >> ret true
                             else ret false)
                   | _ => None
                   end) in
            if returned : bool then ret true
            else update_state (set_result result) >> ret false) w
       else ret false in
     if returned : bool then ret tt
     else
       update_state (set_status ResultUploaded) >>
       update_state (set_files event_files)).

Definition commitment_ready (event_task_id : Z) : M unit :=
  wait_for_status ResultUploaded >>
  state_context
    (let* st := state in
     if negb (0 <? length (result st))%nat then
       raise (AssertionError
         "Task result not found when receive event TaskResultCommitmentsReady.")
     else
       (if negb (disclosed st) then
          _call_task_contract_method "discloseTaskResult"
            [("task_id", VInt (self_task_id cfg));
             ("round", VInt (round st));
             ("result", VBytes (result st))] >>
          update_state (set_disclosed true)
        else ret tt) >>
       update_state (set_status Disclosed)).

Definition task_success (event_task_id : Z) (result_node : string) : M unit :=
  wait_for_status Disclosed >>
  state_context
    ((if String.eqb result_node (account cfg) then
        let* st := state in
        await (RelayUpload (self_task_id cfg) (files st))
              (fun t => outcome (relay_upload_task_result env t
                                   (self_task_id cfg) (files st))) >>
        _call_task_contract_method "reportResultsUploaded"
          [("task_id", VInt (self_task_id cfg)); ("round", VInt (round st))]
      else ret tt) >>
     update_state (set_status Success)).

Definition task_aborted (event_task_id : Z) : M unit :=
  state_context (update_state (set_status Aborted)).

Definition cleanup : M unit :=
  fun w =>
    if negb (_cleaned w) then
      (tell (Unwatch (_commitment_watch_id cfg)) >>
       tell (Unwatch (_success_watch_id cfg)) >>
       tell (Unwatch (_aborted_watch_id cfg)) >>
       fail_after 10 true
         (let* st := state in
          await (DeleteResultFiles (files st))
                (fun t => outcome (delete_result_files env t (files st)))) >>
       state_deleter >>
       (fun w' => (Done tt, with_cleaned true w'))) w
    else (Done tt, w).

Definition impl : Impl :=
  mkImpl task_created result_ready commitment_ready task_success
         task_aborted cleanup get_task cancel_task.

End InferenceTaskRunner.
End InferenceTaskRunner.

(** ** class MockTaskRunner *)

(** [int(x)] of a float: truncation towards zero. *)
Definition py_int (q : Q) : Z := Z.quot (Qnum q) (Z.pos (Qden q)).

(** The value of a hexadecimal digit. *)
Definition hex_digit (c : Ascii.ascii) : option N :=
  let n := Ascii.N_of_ascii c in
  if (48 <=? n)%N && (n <=? 57)%N then Some (n - 48)%N
  else if (97 <=? n)%N && (n <=? 102)%N then Some (n - 87)%N
  else if (65 <=? n)%N && (n <=? 70)%N then Some (n - 55)%N
  else None.

(** ASCII whitespace: space, tab, line feed, vertical tab, form feed,
    carriage return. *)
Definition is_space (c : Ascii.ascii) : bool :=
  let n := Ascii.N_of_ascii c in
  (n =? 32)%N || ((9 <=? n)%N && (n <=? 13)%N).

(** [bytes.fromhex(s)]: two hexadecimal digits per byte, whitespace allowed
    in front of a byte and at the end; [None] is [ValueError]. *)
Fixpoint fromhex (s : string) : option bytes :=
  match s with
  | EmptyString => Some []
  | String c rest =>
      if is_space c then fromhex rest
      else
        match hex_digit c, rest with
        | Some top, String d rest' =>
            match hex_digit d with
            | Some bot =>
                match fromhex rest' with
                | Some bs =>
                    Some (Ascii.byte_of_ascii (Ascii.ascii_of_N (16 * top + bot)) :: bs)
                | None => None
                end
            | None => None
            end
        | _, _ => None
        end
  end.

(** [h[2:]] *)
Definition drop_prefix2 (h : string) : string :=
  match h with
  | String _ (String _ rest) => rest
  | _ => EmptyString
  end.

(** [b"".join([bytes.fromhex(h[2:]) for h in hashes])] *)
Fixpoint join_hashes (hashes : list string) : option bytes :=
  match hashes with
  | [] => Some []
  | h :: rest =>
      match fromhex (drop_prefix2 h) with
      | Some b =>
          match join_hashes rest with
          | Some bs => Some (b ++ bs)
          | None => None
          end
      | None => None
      end
  end.

Module MockTaskRunner.
Import TaskRunner.
Section MockTaskRunner.
Variable env : Env.
Variable cfg : Config.
Variable _timeout : Z.

(** [get_task]: a task with the runner's own id, due [_timeout] seconds
    from now; the other fields of [ChainTask] are constants. *)
Definition get_task : M (option ChainTask) :=
  fun w =>
    (Done (Some (mkChainTask (self_task_id cfg)
                   (_timeout + py_int (time_now env (trace w))))), w).

Definition cancel_task : M unit := ret tt.

Definition task_created (event_task_id event_round : Z) : M (option bool) :=
  wait_for_status Pending >>
  state_context
    (update_state (set_round event_round) >>
     update_state (set_status Executing)) >>
  ret None.

Definition result_ready (event_task_id : Z) (hashes event_files : list string)
    : M unit :=
  wait_for_status Executing >>
  state_context
    (update_state (set_files event_files) >>
     match join_hashes hashes with
     | Some result => update_state (set_result result)
     | None => raise (ValueError "non-hexadecimal number found in fromhex() arg")
     end >>
     update_state (set_status ResultUploaded)).

Definition commitment_ready (event_task_id : Z) : M unit :=
  wait_for_status ResultUploaded >>
  state_context
    (update_state (set_status Disclosed) >>
     update_state (set_disclosed true)).

Definition task_success (event_task_id : Z) (result_node : string) : M unit :=
  wait_for_status Disclosed >>
  state_context (update_state (set_status Success)).

Definition task_aborted (event_task_id : Z) : M unit :=
  state_context (update_state (set_status Aborted)).

Definition cleanup : M unit := state_deleter.

Definition impl : Impl :=
  mkImpl task_created result_ready commitment_ready task_success
         task_aborted cleanup get_task cancel_task.

End MockTaskRunner.
End MockTaskRunner.

(** ** Concrete collaborators and runners for the scenarios of section 8 *)

Module Scenario.
Import TaskRunner.

Definition H : bytes := [Byte.x0a; Byte.x0b].

(** Task 7 of the scenarios: every call succeeds, the chain knows the
    task with deadline 1000, the clock reads 100. *)
Definition env_ok : Env :=
  mkEnv (fun _ => 100%Q)
        (fun _ tid => inr (mkChainTask tid 1000))
        (fun _ _ _ => inr H)
        (fun _ _ _ => None)
        (fun _ _ => None)
        (fun _ tid => inr (mkRelayTask tid "{}"))
        (fun _ _ _ => None)
        (fun _ _ _ => None)
        (fun _ _ _ => inr (["0xaa"; "0xbb"], ["out/7/a.png"; "out/7/b.png"]))
        (fun _ _ => ([Byte.xaa; Byte.xbb], [Byte.xcc], [Byte.x01]))
        (fun _ _ => None)
        (fun _ _ => None)
        (fun _ _ => None)
        (fun _ _ => None)
        3.

(** The same, but every receipt reports a revert with [reason]. *)
Definition env_revert (reason : string) : Env :=
  mkEnv (time_now env_ok) (chain_get_task env_ok) (chain_call env_ok)
        (fun _ _ _ => Some (TxRevertedError reason))
        (chain_cancel_task env_ok) (relay_get_task env_ok)
        (relay_upload_task_result env_ok) (celery_send_task env_ok)
        (local_task env_ok) (make_result_commitments env_ok)
        (queue_ack env_ok) (queue_no_ack env_ok) (queue_put env_ok)
        (delete_result_files env_ok) (retry_attempts env_ok).

(** The commitment is reverted with "Task is aborted"; later receipts
    arrive. *)
Definition env_peers_aborted : Env :=
  mkEnv (time_now env_ok) (chain_get_task env_ok) (chain_call env_ok)
        (fun _ method _ =>
           if String.eqb method "submitTaskResultCommitment"
           then Some (TxRevertedError "execution reverted: Task is aborted")
           else None)
        (chain_cancel_task env_ok) (relay_get_task env_ok)
        (relay_upload_task_result env_ok) (celery_send_task env_ok)
        (local_task env_ok) (make_result_commitments env_ok)
        (queue_ack env_ok) (queue_no_ack env_ok) (queue_put env_ok)
        (delete_result_files env_ok) (retry_attempts env_ok).

(** The chain does not know the task: [getTask] answers the zero task. *)
Definition env_no_task : Env :=
  mkEnv (time_now env_ok) (fun _ _ => inr (mkChainTask 0 0))
        (chain_call env_ok) (tx_wait env_ok)
        (chain_cancel_task env_ok) (relay_get_task env_ok)
        (relay_upload_task_result env_ok) (celery_send_task env_ok)
        (local_task env_ok) (make_result_commitments env_ok)
        (queue_ack env_ok) (queue_no_ack env_ok) (queue_put env_ok)
        (delete_result_files env_ok) (retry_attempts env_ok).

(** The clock is already past the deadline 1000 of the chain. *)
Definition env_late : Env :=
  mkEnv (fun _ => 2000%Q) (chain_get_task env_ok)
        (chain_call env_ok) (tx_wait env_ok)
        (chain_cancel_task env_ok) (relay_get_task env_ok)
        (relay_upload_task_result env_ok) (celery_send_task env_ok)
        (local_task env_ok) (make_result_commitments env_ok)
        (queue_ack env_ok) (queue_no_ack env_ok) (queue_put env_ok)
        (delete_result_files env_ok) (retry_attempts env_ok).

(** The local worker refuses every task as invalid. *)
Definition env_invalid : Env :=
  mkEnv (time_now env_ok) (chain_get_task env_ok)
        (chain_call env_ok) (tx_wait env_ok)
        (chain_cancel_task env_ok) (relay_get_task env_ok)
        (relay_upload_task_result env_ok) (celery_send_task env_ok)
        (fun _ _ _ => inl TaskInvalid) (make_result_commitments env_ok)
        (queue_ack env_ok) (queue_no_ack env_ok) (queue_put env_ok)
        (delete_result_files env_ok) (retry_attempts env_ok).

Definition cfg7 : Config := mkConfig 7 "inference" false "0xme" 1 2 3.

Definition st7 (s : TaskStatus) : TaskState :=
  mkTaskState 7 2 1000 s [] false [] "" [].

(** Task 7 after its commitment: the result is known. *)
Definition st7_uploaded : TaskState :=
  mkTaskState 7 2 1000 ResultUploaded [Byte.xaa; Byte.xbb] false
              ["out/7/a.png"; "out/7/b.png"] "" [].

(** The same with a disclose transaction recorded as in flight, as a
    restarted runner would load it in scenario S5. *)
Definition st7_in_flight : TaskState :=
  mkTaskState 7 2 1000 ResultUploaded [Byte.xaa; Byte.xbb] false
              ["out/7/a.png"; "out/7/b.png"] "discloseTaskResult" H.

Definition disclose_kwargs : Kwargs :=
  [("task_id", VInt 7); ("round", VInt 2);
   ("result", VBytes [Byte.xaa; Byte.xbb])].

(** A runner holding [st], in sync with the cache, nothing buffered. *)
Definition runner_at (st : TaskState) : Runner :=
  mkRunner (Some st) [] false {[ task_id st := st ]} [].

(** A restarted runner that finds task 7 already aborted in the cache,
    with two events buffered by the dispatcher. *)
Definition runner_buffered : Runner :=
  mkRunner None [(11%Z, TaskCreated 7 2); (12%Z, TaskAborted 7)] false
           {[ 7%Z := st7 Aborted ]} [].

(** A runner torn down by a cancellation while task 7 is executing, with
    the same two events buffered. *)
Definition runner_executing : Runner :=
  mkRunner None [(11%Z, TaskCreated 7 2); (12%Z, TaskAborted 7)] false
           {[ 7%Z := st7 Executing ]} [].

(** A runner just constructed: no state yet, empty cache. *)
Definition runner_new : Runner := mkRunner None [] false ∅ [].

Definition inference (env : Env) : Impl := InferenceTaskRunner.impl env cfg7.

(** Task 7 at status Disclosed, after its commitment and disclosure. *)
Definition st7_disclosed : TaskState :=
  mkTaskState 7 2 1000 Disclosed [Byte.xaa; Byte.xbb] true
              ["out/7/a.png"; "out/7/b.png"] "" [].

(** TaskCreated is sent and taken by the loop. *)
Definition sched_created : list Sched := [SSend 1 (TaskCreated 7 2); SRecv].

(** TaskAborted is sent and taken by the loop. *)
Definition sched_aborted : list Sched := [SSend 1 (TaskAborted 7); SRecv].

Definition mock (env : Env) : Impl := MockTaskRunner.impl env cfg7 900.
End Scenario.

(** ** Observations on traces and runners *)

(** Number of submissions of [method] in a trace. *)
Fixpoint submissions (method : string) (t : list IO) : nat :=
  match t with
  | [] => 0
  | ChainCall m _ :: rest =>
      if String.eqb m method then S (submissions method rest)
      else submissions method rest
  | _ :: rest => submissions method rest
  end.

(** Number of [cancelTask] calls in a trace. *)
Fixpoint cancellations (t : list IO) : nat :=
  match t with
  | [] => 0
  | ChainCancelTask _ :: rest => S (cancellations rest)
  | _ :: rest => cancellations rest
  end.

(** The methods the coordinator knows. *)
Definition supported (method : string) : bool :=
  String.eqb method "submitTaskResultCommitment" ||
  String.eqb method "discloseTaskResult" ||
  String.eqb method "reportResultsUploaded" ||
  String.eqb method "reportTaskError".

(** The waiting fields of a state, emptied. *)
Definition cleared (st : TaskState) : TaskState :=
  set_waiting_tx_method "" (set_waiting_tx_hash [] st).

(** What a state-context leaves in the trace when it is left. *)
Definition dumped (st : TaskState) : list IO :=
  [ScopeEnter 10 true; CacheDump st; ScopeExit].

Definition ack_ids (dq : list (Z * TaskEvent)) : list Z := map fst dq.

(** The keyword arguments of [reportTaskError] and of the commitment. *)
Definition report_kwargs (cfg : Config) (st : TaskState) : Kwargs :=
  [("task_id", VInt (self_task_id cfg)); ("round", VInt (round st))].

Definition commitment_kwargs (cfg : Config) (st : TaskState)
    (commitment nonce : bytes) : Kwargs :=
  [("task_id", VInt (self_task_id cfg)); ("round", VInt (round st));
   ("commitment", VBytes commitment); ("nonce", VBytes nonce)].

Definition disclose_kwargs_of (cfg : Config) (st : TaskState) : Kwargs :=
  [("task_id", VInt (self_task_id cfg)); ("round", VInt (round st));
   ("result", VBytes (result st))].

(** One move of the status: stay, step to the next stage, or abort. *)
Definition next_status (s : TaskStatus) : option TaskStatus :=
  match s with
  | Pending => Some Executing
  | Executing => Some ResultUploaded
  | ResultUploaded => Some Disclosed
  | Disclosed => Some Success
  | Success | Aborted => None
  end.

Definition status_step (s s' : TaskStatus) : Prop :=
  s' = s \/ s' = Aborted \/ next_status s = Some s'.

(** A revert that [result_ready] reads as "the peers reported errors". *)
Definition aborted_by_peers (e : exn) : bool :=
  match e with
  | TxRevertedError reason => contains "Task is aborted" reason
  | _ => false
  end.

(** The receipt of the call [method(kwargs)], driven by the coordinator from
    [w], reports a revert: either of the transaction it submits, or of the
    stored one it resumes. *)
Definition receipt_reverts (env : Env) (method : string) (kwargs : Kwargs)
    (w : Runner) (reason : string) : Prop :=
  exists st, _state w = Some st /\
    ((waiting_tx_method st = "" /\ waiting_tx_hash st = [] /\
      supported method = true /\
      exists h, chain_call env (trace w) method kwargs = inr h /\
        tx_wait env (trace w ++ [ChainCall method kwargs]) method h
          = Some (TxRevertedError reason))
     \/
     (waiting_tx_method st = method /\ waiting_tx_hash st <> [] /\
      tx_wait env (trace w) method (waiting_tx_hash st)
        = Some (TxRevertedError reason))).

(** The reading of "on revert the coordinator clears its waiting fields". *)
Definition clears_waiting_fields_on_revert (env : Env) (method : string)
    (kwargs : Kwargs) (w : Runner) : Prop :=
  forall reason, receipt_reverts env method kwargs w reason ->
    exists st',
      _state (snd (InferenceTaskRunner._call_task_contract_method env method kwargs w))
        = Some st' /\
      waiting_tx_method st' = "" /\ waiting_tx_hash st' = [].

(** The reading of "once the status is terminal no handler changes it". *)
Definition terminal_is_final (env : Env) (cfg : Config) (event : TaskEvent)
    (w : Runner) : Prop :=
  forall st, _state w = Some st -> TaskRunner.is_terminal (status st) = true ->
    exists st',
      _state (snd (TaskRunner.process_event (InferenceTaskRunner.impl env cfg) event w))
        = Some st' /\
      status st' = status st.

(** *** Invariants of runner code

    [preserves I m]: running [m] from a runner that satisfies [I] ends, in
    whatever way, in a runner that satisfies [I].  [Stable I okE okS] says
    which elementary changes of a runner keep [I]: appending the calls in
    [okE] to the trace, replacing the state along [okS], and any change of
    the cache, of the deque and of the cleaned flag. *)
Definition preserves {A} (I : Runner -> Prop) (m : M A) : Prop :=
  forall w, I w -> I (snd (m w)).

Record Stable (I : Runner -> Prop) (okE : IO -> Prop)
    (okS : option TaskState -> option TaskState -> Prop) : Prop := mkStable {
  stable_emit : forall e w, okE e -> I w -> I (emit e w);
  stable_state : forall o w, okS (_state w) o -> I w -> I (with_state o w);
  stable_cache : forall c w, I w -> I (with_cache c w);
  stable_deque : forall d w, I w -> I (with_deque d w);
  stable_cleaned : forall b w, I w -> I (with_cleaned b w);
}.

(** Every event but a [cancelTask] call. *)
Definition not_cancel (e : IO) : Prop :=
  match e with
  | ChainCancelTask _ => False
  | _ => True
  end.

(** A change of fields other than the status is allowed by [okS]. *)
Definition keeps (okS : option TaskState -> option TaskState -> Prop) : Prop :=
  forall st st', status st' = status st -> okS (Some st) (Some st').

(** Writing the status [s] is allowed by [okS]. *)
Definition writes (okS : option TaskState -> option TaskState -> Prop)
    (s : TaskStatus) : Prop :=
  forall st, okS (Some st) (Some (set_status s st)).

(** The state is present and its status is in [S]. *)
Definition status_in (S : TaskStatus -> Prop) (w : Runner) : Prop :=
  exists st, _state w = Some st /\ S (status st).

Definition status_moves (S : TaskStatus -> Prop)
    (o o' : option TaskState) : Prop :=
  forall st, o = Some st -> S (status st) ->
    exists st', o' = Some st' /\ S (status st').

(** The runner after a sequence of events has been handled, one handler
    after the other. *)
Definition handle_events (env : Env) (cfg : Config) (events : list TaskEvent)
    (w : Runner) : Runner :=
  fold_left
    (fun w event =>
       snd (TaskRunner.process_event (InferenceTaskRunner.impl env cfg) event w))
    events w.

(** Appending a list of calls to the trace. *)
Definition emit_all (es : list IO) (w : Runner) : Runner :=
  mkRunner (_state w) (_deque w) (_cleaned w) (cache w) (trace w ++ es).

(** The trace of [w] continues [t0] without any [cancelTask] call. *)
Definition extends_quietly (t0 : list IO) (w : Runner) : Prop :=
  exists delta, trace w = t0 ++ delta /\ cancellations delta = 0.

(** The state of a runner is terminal: the test of the drain. *)
Definition at_terminal_status (w : Runner) : bool :=
  match _state w with
  | Some st => TaskRunner.is_terminal (status st)
  | None => false
  end.

(** The deadline of [run] passes before the loop has ended: [init]
    succeeds and either the budget [timeout - now] is already used up, or
    the schedule reaches [SDeadline] while the loop is still running.
    [w1] is the runner at the moment [TimeoutError] is raised. *)
Definition deadline_passes (env : Env) (cfg : Config)
    (sched : list TaskRunner.Sched) (w w1 : Runner) : Prop :=
  exists w0 st0,
    TaskRunner.init cfg (InferenceTaskRunner.impl env cfg) w = (Done true, w0) /\
    _state w0 = Some st0 /\
    ((Qle_bool (inject_Z (timeout st0) - time_now env (trace w0)) 0 = true /\
      w1 = w0)
     \/
     (Qle_bool (inject_Z (timeout st0) - time_now env (trace w0)) 0 = false /\
      exists pre post suspended w',
        sched = pre ++ TaskRunner.SDeadline :: post /\
        TaskRunner.loop_run env (InferenceTaskRunner.impl env cfg) pre [] w0
          = (TaskRunner.Continue suspended, w') /\
        w1 = snd (TaskRunner.cancel_suspended suspended w'))).

(** *** What runner code may change

    [Frame P I]: the property [I] of runners survives the three kinds of
    change the handlers make: a call appended to the trace (an external
    one only if [P] allows it, a dump never on its own), one of the field
    assignments of [handler_update], and the dump of the current state
    into the cache.  [runs P m]: the code [m] never stays suspended and
    keeps every such property.  [behind_barrier P s m]: [m] stays
    suspended at once, having changed nothing, when the status is not
    [s], and goes on as such code otherwise. *)
Inductive handler_update : (TaskState -> TaskState) -> Prop :=
| upd_round r : handler_update (set_round r)
| upd_status s : handler_update (set_status s)
| upd_result r : handler_update (set_result r)
| upd_disclosed b : handler_update (set_disclosed b)
| upd_files fs : handler_update (set_files fs)
| upd_waiting_tx_hash : handler_update (set_waiting_tx_hash [])
| upd_waiting_tx_method : handler_update (set_waiting_tx_method "").

Definition is_dump (e : IO) : Prop :=
  match e with
  | CacheDump _ => True
  | _ => False
  end.

(** The calls that leave the process: everything in the trace but dumps,
    scope marks and log lines. *)
Definition is_external (e : IO) : bool :=
  match e with
  | CacheDump _ | ScopeEnter _ _ | ScopeExit | LogError _ | LogDebug _ => false
  | _ => true
  end.

Definition external_calls (t : list IO) : list IO :=
  omap (fun e => if is_external e then Some e else None) t.

Record Frame (P : IO -> Prop) (I : Runner -> Prop) : Prop := mkFrame {
  frame_emit : forall e w,
    ~ is_dump e -> (is_external e = true -> P e) -> I w -> I (emit e w);
  frame_update : forall f st w,
    handler_update f -> _state w = Some st -> I w ->
    I (with_state (Some (f st)) w);
  frame_dump : forall st w,
    _state w = Some st -> I w ->
    I (emit (CacheDump st) (with_cache (<[task_id st := st]> (cache w)) w));
}.

Definition terminates {A} (m : M A) : Prop :=
  forall w, fst (m w) <> Blocked.

Definition runs {A} (P : IO -> Prop) (m : M A) : Prop :=
  terminates m /\ forall I, Frame P I -> preserves I m.

Definition waits_at (s : option TaskStatus) (w : Runner) : bool :=
  match s, _state w with
  | Some s, Some st => negb (bool_decide (status st = s))
  | _, _ => false
  end.

Definition behind_barrier {A} (P : IO -> Prop) (s : option TaskStatus)
    (m : M A) : Prop :=
  exists rest, runs P rest /\
    forall w, m w = if waits_at s w then (Blocked, w) else rest w.

(** The trace of [w] continues [t0], and every external call made since
    is one of [P]. *)
Definition calls_within (P : IO -> Prop) (t0 : list IO) (w : Runner) : Prop :=
  exists delta, trace w = t0 ++ delta /\
    forall e, e ∈ delta -> is_external e = true -> P e.

(** The external calls of each stage: what the handler of [event] may
    call, given the configuration of the runner. *)
Definition footprint (cfg : Config) (event : TaskEvent) (e : IO) : Prop :=
  match event, e with
  | TaskCreated tid _, RelayGetTask tid' => tid' = tid
  | TaskCreated _ _, Sleep n => n = 1%Z \/ n = 10%Z
  | TaskCreated _ _, CelerySendTask name _ =>
      self_distributed cfg = true /\ name = self_task_name cfg
  | TaskCreated _ _, LocalTask name _ =>
      self_distributed cfg = false /\ name = self_task_name cfg
  | TaskCreated _ _, QueuePut (TaskResultReady tid _ _) =>
      self_distributed cfg = false /\ tid = self_task_id cfg
  | TaskCreated _ _, (ChainCall m _ | TxWait m _) =>
      self_distributed cfg = false /\ m = "reportTaskError"
  | TaskResultReady _ _ _, (ChainCall m _ | TxWait m _) =>
      m = "submitTaskResultCommitment" \/ m = "reportTaskError"
  | TaskResultCommitmentsReady _, (ChainCall m _ | TxWait m _) =>
      m = "discloseTaskResult"
  | TaskSuccess _ node, RelayUpload tid _ =>
      node = account cfg /\ tid = self_task_id cfg
  | TaskSuccess _ node, (ChainCall m _ | TxWait m _) =>
      node = account cfg /\ m = "reportResultsUploaded"
  | _, _ => False
  end.

(** A submission of [method], or the wait for a receipt of it. *)
Definition calls_method (method : string) (e : IO) : Prop :=
  match e with
  | ChainCall m _ | TxWait m _ => m = method
  | _ => False
  end.

(** The events whose handler ends the receive loop. *)
Definition finishes (event : TaskEvent) : bool :=
  match event with
  | TaskSuccess _ _ | TaskAborted _ => true
  | _ => false
  end.

(** The status a handler waits for, if it waits. *)
Definition barrier_of (event : TaskEvent) : option TaskStatus :=
  match event with
  | TaskCreated _ _ => Some Pending
  | TaskResultReady _ _ _ => Some Executing
  | TaskResultCommitmentsReady _ => Some ResultUploaded
  | TaskSuccess _ _ => Some Disclosed
  | TaskAborted _ => None
  end.

(** The state in memory is the one the cache holds under its task id. *)
Definition in_sync (w : Runner) : Prop :=
  exists st, _state w = Some st /\ cache w !! task_id st = Some st.

(** No transaction is recorded as in flight. *)
Definition no_tx_in_flight (st : TaskState) : Prop :=
  waiting_tx_method st = "" /\ waiting_tx_hash st = [].

(** Since the trace [t0], the state and every snapshot dumped have had no
    transaction recorded as in flight. *)
Definition never_in_flight (t0 : list IO) (w : Runner) : Prop :=
  (exists st, _state w = Some st /\ no_tx_in_flight st) /\
  exists delta, trace w = t0 ++ delta /\
    forall st', CacheDump st' ∈ delta -> no_tx_in_flight st'.

(** The runner of task [tid], deadline [tmo], in a cache that agrees with
    [c0] on every other task. *)
Definition owns_entry (tid tmo : Z) (c0 : TaskStateCache) (w : Runner) : Prop :=
  (exists st, _state w = Some st /\ task_id st = tid /\ timeout st = tmo) /\
  forall k, k <> tid -> cache w !! k = c0 !! k.

(** The ack ids of the acks in a trace. *)
Definition acked (t : list IO) : list Z :=
  omap (fun e => match e with QueueAck ack_id => Some ack_id | _ => None end) t.

(** The ack ids the dispatcher hands over while the loop is running: those
    of the [SSend] items the schedule reaches before the loop ends. *)
Fixpoint sends_reached (env : Env) (impl : TaskRunner.Impl)
    (sched : list TaskRunner.Sched) (suspended : list (Z * TaskEvent))
    (w : Runner) : list Z :=
  match sched with
  | [] => []
  | s :: rest =>
      match s with
      | TaskRunner.SSend ack_id _ => [ack_id]
      | _ => []
      end ++
      match TaskRunner.loop_step env impl s suspended w with
      | (TaskRunner.Continue suspended', w') =>
          sends_reached env impl rest suspended' w'
      | _ => []
      end
  end.

(** Where the event with ack id [ack_id] is when the loop has come to
    [out], [d] being the trace since the start: acked, back in the deque,
    or with a handler that is still suspended while the loop goes on. *)
Definition accounted_for (ack_id : Z) (d : list IO)
    (out : TaskRunner.LoopCtl * Runner) : Prop :=
  ack_id ∈ acked d \/
  ack_id ∈ ack_ids (_deque (snd out)) \/
  match fst out with
  | TaskRunner.Continue suspended => ack_id ∈ ack_ids suspended
  | _ => False
  end.

(** What the retried relay call leaves in the trace when its attempts
    [n], [n+1], ... fail with the errors [errs] and one more call
    follows: after each failure the error is logged and the runner waits,
    one second after each of the first thirty attempts and ten seconds
    after every later one. *)
Fixpoint retry_trace (tid : Z) (n : nat) (errs : list exn) : list IO :=
  match errs with
  | [] => [RelayGetTask tid]
  | e :: rest =>
      RelayGetTask tid :: LogError e
      :: Sleep (if (n <? 30)%nat then 1%Z else 10%Z)
      :: retry_trace tid (S n) rest
  end.

(** [send] for each pair in turn, and [recv] called [n] times. *)
Definition send_all (xs : list (Z * TaskEvent)) : M unit :=
  for_each xs (fun '(ack_id, event) => TaskRunner.send ack_id event).

Fixpoint recv_n (n : nat) : M (list (Z * TaskEvent)) :=
  match n with
  | O => ret []
  | S k =>
      let* x := TaskRunner.recv in
      let* xs := recv_n k in
      ret (x :: xs)
  end.

(** ** Basic facts *)

(** Unfolding the state-context and what it is made of. *)
Ltac run_ctx :=
  unfold TaskRunner.state_context, try_finally, TaskRunner.update_state, bind,
    TaskRunner.state, fail_after, TaskRunner.cache_dump, emit, with_cache,
    with_state.

Section Basics.
Import TaskRunner.

Lemma submissions_app method t1 t2 :
  submissions method (t1 ++ t2) = submissions method t1 + submissions method t2.
Proof.
  induction t1 as [|e t1 IH]; simpl; [done|].
  destruct e; try done. destruct (String.eqb _ _); simpl; by rewrite IH.
Qed.

Lemma cancellations_app t1 t2 :
  cancellations (t1 ++ t2) = cancellations t1 + cancellations t2.
Proof.
  induction t1 as [|e t1 IH]; simpl; [done|].
  destruct e; simpl; by rewrite ?IH.
Qed.

(** Leaving a state-context whose body sets fields: the new state is in
    memory, in the cache, and in the trace. *)
Lemma state_context_update f w st :
  _state w = Some st ->
  state_context (update_state f) w
  = (Done tt,
     mkRunner (Some (f st)) (_deque w) (_cleaned w)
              (<[task_id (f st) := f st]> (cache w))
              (trace w ++ dumped (f st))).
Proof.
  intros Hst. destruct w as [s dq c ch t]; simpl in *; subst s.
  run_ctx; simpl. by rewrite <- !app_assoc.
Qed.
End Basics.

(** ** The chain-call coordinator *)

Section Coordinator.
Import TaskRunner InferenceTaskRunner.
Variable env : Env.

(** The coordinator, unfolded once on a runner that holds a state. *)
Lemma call_unfold method kwargs w st :
  _state w = Some st ->
  _call_task_contract_method env method kwargs w
  = (let* waiter :=
       if (String.length (waiting_tx_method st) =? 0)%nat
          && (length (waiting_tx_hash st) =? 0)%nat
       then
         if supported method then contract_func env method kwargs
         else raise (ValueError "Unsupported task contract method")
       else if String.eqb (waiting_tx_method st) method
               && (0 <? length (waiting_tx_hash st))%nat
       then ret (mkTxWaiter (waiting_tx_method st) (waiting_tx_hash st))
       else raise (ValueError "Error state waiting tx method") in
     waiter_wait env waiter >>
     state_context
       (update_state (set_waiting_tx_hash []) >>
        update_state (set_waiting_tx_method ""))) w.
Proof.
  intros Hst. unfold _call_task_contract_method at 1.
  unfold bind at 1. unfold state at 1. rewrite Hst.
  unfold bind at 2.
  destruct (_ && _); [|reflexivity].
  unfold supported, submit_task_result_commitment, disclose_task_result,
    report_results_uploaded, report_task_error.
  unfold bind at 2.
  destruct (String.eqb_spec method "submitTaskResultCommitment") as [->|];
    [reflexivity|].
  destruct (String.eqb_spec method "discloseTaskResult") as [->|];
    [reflexivity|].
  destruct (String.eqb_spec method "reportResultsUploaded") as [->|];
    [reflexivity|].
  destruct (String.eqb_spec method "reportTaskError") as [->|];
    reflexivity.
Qed.

(** Resuming: the stored hash is awaited, nothing is submitted. *)
Lemma call_resume method kwargs w st :
  _state w = Some st ->
  waiting_tx_method st = method ->
  waiting_tx_hash st <> [] ->
  _call_task_contract_method env method kwargs w
  = match tx_wait env (trace w) method (waiting_tx_hash st) with
    | Some e => (Raised e, emit (TxWait method (waiting_tx_hash st)) w)
    | None =>
        (Done tt,
         mkRunner (Some (cleared st)) (_deque w) (_cleaned w)
                  (<[task_id st := cleared st]> (cache w))
                  (trace w ++ TxWait method (waiting_tx_hash st)
                              :: dumped (cleared st)))
    end.
Proof.
  intros Hst Hm Hh. rewrite (call_unfold _ _ _ _ Hst).
  destruct (waiting_tx_hash st) as [|b h] eqn:Eh; [done|].
  rewrite andb_false_r. rewrite Hm, String.eqb_refl.
  destruct w as [s dq c ch t]; simpl in Hst; subst s.
  unfold waiter_wait, await, ret; run_ctx; simpl.
  destruct (tx_wait env t method (b :: h)); simpl; [done|].
  by rewrite <- !app_assoc.
Qed.

(** A fresh submission: the call and the wait follow each other; the next
    thing persisted is the state with its waiting fields still empty. *)
Lemma call_submit method kwargs w st :
  _state w = Some st ->
  waiting_tx_method st = "" ->
  waiting_tx_hash st = [] ->
  supported method = true ->
  _call_task_contract_method env method kwargs w
  = match chain_call env (trace w) method kwargs with
    | inl e => (Raised e, emit (ChainCall method kwargs) w)
    | inr h =>
        match tx_wait env (trace w ++ [ChainCall method kwargs]) method h with
        | Some e =>
            (Raised e, emit (TxWait method h) (emit (ChainCall method kwargs) w))
        | None =>
            (Done tt,
             mkRunner (Some st) (_deque w) (_cleaned w)
                      (<[task_id st := st]> (cache w))
                      (trace w ++ ChainCall method kwargs :: TxWait method h
                                  :: dumped st))
        end
    end.
Proof.
  intros Hst Hm Hh Hs. rewrite (call_unfold _ _ _ _ Hst).
  rewrite Hm, Hh, Hs.
  destruct st as [tid rd tmo sts res dis fs wm wh]; simpl in Hm, Hh; subst wm wh.
  destruct w as [s dq c ch t]; simpl in Hst; subst s.
  unfold contract_func, waiter_wait, await, ret; run_ctx; simpl.
  destruct (chain_call env t method kwargs) as [e|h]; simpl; [done|].
  destruct (tx_wait env _ method h); simpl; [done|].
  by rewrite <- !app_assoc.
Qed.

(** Stored fields that are not those of a call in flight of the requested
    method: nothing is done. *)
Lemma call_mismatch method kwargs w st :
  _state w = Some st ->
  ~ (waiting_tx_method st = "" /\ waiting_tx_hash st = []) ->
  ~ (waiting_tx_method st = method /\ waiting_tx_hash st <> []) ->
  _call_task_contract_method env method kwargs w
  = (Raised (ValueError "Error state waiting tx method"), w).
Proof.
  intros Hst Hset Hother. rewrite (call_unfold _ _ _ _ Hst).
  assert ((String.length (waiting_tx_method st) =? 0)%nat
          && (length (waiting_tx_hash st) =? 0)%nat = false) as ->.
  { destruct (waiting_tx_method st), (waiting_tx_hash st); try done.
    by destruct Hset. }
  assert (String.eqb (waiting_tx_method st) method
          && (0 <? length (waiting_tx_hash st))%nat = false) as ->.
  { destruct (String.eqb_spec (waiting_tx_method st) method) as [Heq|]; [|done].
    destruct (waiting_tx_hash st) eqn:Eh; [done|].
    by destruct Hother. }
  reflexivity.
Qed.
End Coordinator.

Section CoordinatorClaims.
Import TaskRunner InferenceTaskRunner Scenario.

(** C1 (the code departs from it).  A call that starts with both waiting
    fields empty is submitted and its receipt awaited at once: between
    [ChainCall] and [TxWait] nothing is persisted, and the only snapshot
    dumped, after the receipt, has both waiting fields empty.  The pair
    (method, hash) never reaches the task state. *)
Theorem submit_awaits_receipt_without_persisting_hash :
  let out := _call_task_contract_method env_ok "discloseTaskResult"
               disclose_kwargs (runner_at st7_uploaded) in
  fst out = Done tt /\
  trace (snd out)
  = [ChainCall "discloseTaskResult" disclose_kwargs;
     TxWait "discloseTaskResult" H;
     ScopeEnter 10 true; CacheDump st7_uploaded; ScopeExit] /\
  _state (snd out) = Some st7_uploaded /\
  waiting_tx_method st7_uploaded = "" /\ waiting_tx_hash st7_uploaded = [].
Proof. vm_compute. repeat split. Qed.

(** The same for every environment and runner: whatever the coordinator
    dumps after a fresh submission has empty waiting fields. *)
Lemma fresh_submission_dumps_empty_fields env method kwargs w st st' :
  _state w = Some st ->
  waiting_tx_method st = "" -> waiting_tx_hash st = [] ->
  supported method = true ->
  CacheDump st' ∈ drop (length (trace w))
    (trace (snd (_call_task_contract_method env method kwargs w))) ->
  st' = st.
Proof.
  intros Hst Hm Hh Hs. rewrite (call_submit env _ kwargs _ _ Hst Hm Hh Hs).
  destruct (chain_call _ _ _ _) as [e|h]; simpl.
  { rewrite drop_app_length, list_elem_of_singleton. discriminate. }
  destruct (tx_wait _ _ _ _); simpl.
  - rewrite <- app_assoc, drop_app_length. simpl.
    rewrite !elem_of_cons, elem_of_nil. intros [|[|[]]]; discriminate.
  - rewrite drop_app_length. unfold dumped.
    rewrite !elem_of_cons, elem_of_nil.
    intros [|[|[|[Heq|[|[]]]]]]; try discriminate. by injection Heq.
Qed.

(** C2.  With a transaction recorded in the waiting fields, the coordinator
    submits nothing.  If the stored method is the requested one and a hash
    is stored, it awaits the receipt of the stored hash and, when the
    receipt arrives, clears both fields in memory and in the cache;
    otherwise (another method, or no hash) the call fails with [ValueError]
    and nothing at all has happened. *)
Theorem resume_awaits_stored_hash_without_resubmitting
    env method kwargs w st :
  _state w = Some st ->
  ~ (waiting_tx_method st = "" /\ waiting_tx_hash st = []) ->
  let out := _call_task_contract_method env method kwargs w in
  (forall m, submissions m (trace (snd out)) = submissions m (trace w)) /\
  if decide (waiting_tx_method st = method /\ waiting_tx_hash st <> []) then
    match tx_wait env (trace w) method (waiting_tx_hash st) with
    | None =>
        fst out = Done tt /\
        trace (snd out)
        = trace w ++ TxWait method (waiting_tx_hash st) :: dumped (cleared st) /\
        _state (snd out) = Some (cleared st) /\
        cache (snd out) !! task_id st = Some (cleared st) /\
        waiting_tx_method (cleared st) = "" /\ waiting_tx_hash (cleared st) = []
    | Some e =>
        fst out = Raised e /\
        snd out = emit (TxWait method (waiting_tx_hash st)) w
    end
  else
    fst out = Raised (ValueError "Error state waiting tx method") /\
    snd out = w.
Proof.
  intros Hst Hset out. subst out. case_decide as Hm.
  - destruct Hm as [Hm Hh]. rewrite (call_resume env _ kwargs _ _ Hst Hm Hh).
    destruct (tx_wait _ _ _ _); simpl.
    + split; [|done]. intros m. rewrite submissions_app. simpl. lia.
    + split; [|by rewrite lookup_insert_eq].
      intros m. rewrite submissions_app. simpl. lia.
  - by rewrite (call_mismatch env _ kwargs _ _ Hst Hset Hm).
Qed.

Lemma resume_awaits_stored_hash_witness :
  let out := _call_task_contract_method env_ok "discloseTaskResult"
               disclose_kwargs (runner_at st7_in_flight) in
  fst out = Done tt /\
  trace (snd out) = TxWait "discloseTaskResult" H :: dumped (cleared st7_in_flight).
Proof.
  pose proof (resume_awaits_stored_hash_without_resubmitting env_ok
    "discloseTaskResult" disclose_kwargs (runner_at st7_in_flight)
    st7_in_flight eq_refl) as Hr.
  destruct Hr as [_ Hr]; [by intros [? _]|].
  rewrite decide_True in Hr by (split; [reflexivity|discriminate]).
  simpl in Hr. destruct Hr as (H1 & H2 & _). split; [exact H1|exact H2].
Defined.

(** Scenario S5: the restarted runner holds the disclose transaction as in
    flight; TaskResultCommitmentsReady makes the coordinator await the
    stored hash, nothing is submitted, and the status becomes Disclosed. *)
Lemma restart_resumes_disclose :
  let out := commitment_ready env_ok cfg7 7 (runner_at st7_in_flight) in
  fst out = Done tt /\
  trace (snd out)
  = TxWait "discloseTaskResult" H
    :: dumped (cleared st7_in_flight)
    ++ dumped (set_status Disclosed (set_disclosed true (cleared st7_in_flight))) /\
  submissions "discloseTaskResult" (trace (snd out)) = 0.
Proof. vm_compute. repeat split. Qed.



End CoordinatorClaims.

(** ** The error-report path *)

Section ReportError.
Import TaskRunner InferenceTaskRunner.
Variable env : Env.
Variable cfg : Config.

(** [_report_error] from a state without a transaction in flight: the
    status Aborted is dumped first, then [reportTaskError] is submitted;
    a revert of the report is swallowed. *)
Lemma report_error_spec w st :
  _state w = Some st ->
  waiting_tx_method st = "" -> waiting_tx_hash st = [] ->
  exists r w' rest,
    _report_error env cfg w = (r, w') /\
    trace w' = trace w ++ dumped (set_status Aborted st)
                 ++ ChainCall "reportTaskError" (report_kwargs cfg st) :: rest /\
    _state w' = Some (set_status Aborted st) /\
    cache w' !! task_id st = Some (set_status Aborted st) /\
    _deque w' = _deque w /\
    r <> Blocked /\
    (forall reason, r <> Raised (TxRevertedError reason)) /\
    submissions "submitTaskResultCommitment" rest = 0.
Proof.
  intros Hst Hm Hh. unfold _report_error.
  unfold bind at 1. rewrite (state_context_update _ _ _ Hst).
  unfold try_except, bind at 1, state at 1. cbn [_state].
  set (st' := set_status Aborted st).
  set (w1 := mkRunner _ _ _ _ _).
  rewrite (call_submit env "reportTaskError" _ w1 st' eq_refl Hm Hh eq_refl).
  change (round st') with (round st). fold (report_kwargs cfg st).
  subst w1. cbn [trace].
  destruct (chain_call env _ _ _) as [e|h].
  { destruct e; cbn;
      (eexists _, _, _; split; [reflexivity|]; cbn;
       rewrite <- ?app_assoc; cbn;
       split; [reflexivity|]; rewrite ?lookup_insert_eq; done). }
  destruct (tx_wait env _ _ _) as [e|].
  { destruct e; cbn;
      (eexists _, _, _; split; [reflexivity|]; cbn;
       rewrite <- ?app_assoc; cbn;
       split; [reflexivity|]; rewrite ?lookup_insert_eq; done). }
  eexists _, _, _; split; [reflexivity|]; cbn.
  rewrite <- ?app_assoc; cbn.
  split; [reflexivity|]. rewrite ?lookup_insert_eq. done.
Qed.
End ReportError.

(** Symbolic execution of handler code on a runner given by its fields. *)
Ltac unfold_runner :=
  unfold TaskRunner.wait_for_status, TaskRunner.state_context,
    TaskRunner.update_state, TaskRunner.cache_dump;
  unfold try_finally, try_except, fail_after, bind, ret, raise, block,
    TaskRunner.state, await, tell, outcome.

Ltac exec :=
  cbn -[InferenceTaskRunner._call_task_contract_method
        InferenceTaskRunner._report_error];
  repeat first [ rewrite bool_decide_true by done
               | rewrite bool_decide_false by done ];
  cbn -[InferenceTaskRunner._call_task_contract_method
        InferenceTaskRunner._report_error].

(** ** The handlers and their status barrier *)

Section Barriers.
Import TaskRunner InferenceTaskRunner.
Variable env : Env.
Variable cfg : Config.

Lemma wait_for_status_blocks {A} s (body : M A) w st :
  _state w = Some st -> status st <> s ->
  (wait_for_status s >> body) w = (Blocked, w).
Proof.
  intros Hst Hs. unfold wait_for_status, bind, state. cbv beta.
  rewrite Hst. by rewrite bool_decide_false.
Qed.

Lemma task_created_blocked tid rd w st :
  _state w = Some st -> status st <> Pending ->
  task_created env cfg tid rd w = (Blocked, w).
Proof. apply wait_for_status_blocks. Qed.

Lemma result_ready_blocked tid hashes fs w st :
  _state w = Some st -> status st <> Executing ->
  result_ready env cfg tid hashes fs w = (Blocked, w).
Proof. apply wait_for_status_blocks. Qed.

Lemma commitment_ready_blocked tid w st :
  _state w = Some st -> status st <> ResultUploaded ->
  commitment_ready env cfg tid w = (Blocked, w).
Proof. apply wait_for_status_blocks. Qed.

Lemma task_success_blocked tid node w st :
  _state w = Some st -> status st <> Disclosed ->
  task_success env cfg tid node w = (Blocked, w).
Proof. apply wait_for_status_blocks. Qed.
End Barriers.

(** ** TaskResultReady *)

Section ResultReady.
Import TaskRunner InferenceTaskRunner.

End ResultReady.

Section ResultReadyTwice.
Import TaskRunner InferenceTaskRunner.
Variable env : Env.
Variable cfg : Config.

(** No submission and no receipt is refused as aborted by the peers
    (that path is the subject of the error report above). *)
Hypothesis call_not_aborted :
  forall t m k e, chain_call env t m k = inl e -> aborted_by_peers e = false.
Hypothesis wait_not_aborted :
  forall t m h e, tx_wait env t m h = Some e -> aborted_by_peers e = false.

Local Ltac result_ready_finish :=
  intros [= <-]; cbn; rewrite !submissions_app; cbn;
  split; [lia|]; eexists; split; [reflexivity|]; cbn;
  rewrite lookup_insert_eq; done.

Lemma result_ready_done tid hashes fs w st w1 :
  _state w = Some st ->
  waiting_tx_method st = "" ->
  waiting_tx_hash st = [] ->
  result_ready env cfg tid hashes fs w = (Done tt, w1) ->
  submissions "submitTaskResultCommitment" (trace w1)
  = submissions "submitTaskResultCommitment" (trace w)
    + (if (length (result st) =? 0)%nat then 1 else 0) /\
  exists st1,
    _state w1 = Some st1 /\ status st1 = ResultUploaded /\ files st1 = fs /\
    cache w1 !! task_id st1 = Some st1.
Proof.
  intros Hst Hm Hh Hrun.
  destruct (decide (status st = Executing)) as [Hs|Hs];
    [|by rewrite (result_ready_blocked env cfg _ _ _ _ _ Hst Hs) in Hrun].
  destruct w as [s dq c ch t]; simpl in Hst; subst s.
  destruct st as [tid' rd tmo sts res0 dis fs0 wm wh]; simpl in *; subst.
  revert Hrun. unfold result_ready. unfold_runner. exec.
  destruct res0 as [|b res0]; exec.
  - destruct (make_result_commitments env t hashes) as [[res com] non].
    erewrite (call_submit env); [|reflexivity|done..].
    exec.
    destruct (chain_call env t _ _) as [e|h] eqn:Hc; exec.
    { pose proof (call_not_aborted _ _ _ _ Hc) as Hna.
      destruct e; exec; try discriminate.
      simpl in Hna. rewrite Hna. exec.
      result_ready_finish. }
    destruct (tx_wait env _ _ _) as [e|] eqn:Hw; exec.
    { pose proof (wait_not_aborted _ _ _ _ Hw) as Hna.
      destruct e; exec; try discriminate.
      simpl in Hna. rewrite Hna. exec.
      result_ready_finish. }
    result_ready_finish.
  - result_ready_finish.
Qed.

End ResultReadyTwice.

(** ** TaskResultCommitmentsReady *)

Section CommitmentReady.
Import TaskRunner InferenceTaskRunner.
Variable env : Env.
Variable cfg : Config.

End CommitmentReady.

(** ** Invariants through the combinators and the handlers *)

Section Preservation.
Import TaskRunner InferenceTaskRunner.
Variable env : Env.
Variable cfg : Config.
Variable I : Runner -> Prop.
Variable okE : IO -> Prop.
Variable okS : option TaskState -> option TaskState -> Prop.
Hypothesis HI : Stable I okE okS.
Hypothesis HE : forall e, not_cancel e -> okE e.
Hypothesis HK : keeps okS.

Lemma preserves_ret {A} (a : A) : preserves I (ret a).
Proof. by intros w. Qed.

Lemma preserves_raise {A} e : preserves I (@raise A e).
Proof. by intros w. Qed.

Lemma preserves_block {A} : preserves I (@block A).
Proof. by intros w. Qed.

Lemma preserves_bind {A B} (m : M A) (k : A -> M B) :
  preserves I m -> (forall a, preserves I (k a)) -> preserves I (bind m k).
Proof.
  intros Hm Hk w Hw. unfold bind. specialize (Hm w Hw).
  destruct (m w) as [[a|e|] w']; simpl in *; [by apply Hk|done..].
Qed.

Lemma preserves_try_except {A} (m : M A) h :
  preserves I m ->
  (forall e handler, h e = Some handler -> preserves I handler) ->
  preserves I (try_except m h).
Proof.
  intros Hm Hh w Hw. unfold try_except. specialize (Hm w Hw).
  destruct (m w) as [[a|e|] w']; simpl in *; [done| |done].
  destruct (h e) as [handler|] eqn:He; [|done]. by eapply Hh.
Qed.

Lemma preserves_try_finally {A} (m : M A) fin :
  preserves I m -> preserves I fin -> preserves I (try_finally m fin).
Proof.
  intros Hm Hf w Hw. unfold try_finally. specialize (Hm w Hw).
  destruct (m w) as [[a|e|] w']; simpl in *; [| |done];
    specialize (Hf w' Hm); by destruct (fin w') as [[[]|e'|] w''].
Qed.

Lemma preserves_fail_after {A} delay shield (body : M A) :
  preserves I body -> preserves I (fail_after delay shield body).
Proof.
  intros Hb w Hw. unfold fail_after.
  assert (I (emit (ScopeEnter delay shield) w)) as Hw'
    by (apply (stable_emit _ _ _ HI); [by apply HE|done]).
  specialize (Hb _ Hw').
  destruct (body _) as [[a|e|] w']; simpl in *; [| |done];
    [|destruct e]; simpl; apply (stable_emit _ _ _ HI); try done;
    by apply HE.
Qed.

Lemma preserves_for_each {A} (xs : list A) body :
  (forall x, preserves I (body x)) -> preserves I (for_each xs body).
Proof.
  intros Hb. induction xs as [|x xs IH]; simpl.
  - apply preserves_ret.
  - apply preserves_bind; [apply Hb|done].
Qed.

Lemma preserves_await {A} call (answer : list IO -> exn + A) :
  not_cancel call -> preserves I (await call answer).
Proof.
  intros Hc w Hw. unfold await.
  destruct (answer (trace w)); simpl; apply (stable_emit _ _ _ HI); auto.
Qed.

Lemma preserves_tell call : not_cancel call -> preserves I (tell call).
Proof. intros Hc w Hw. simpl. apply (stable_emit _ _ _ HI); auto. Qed.

Lemma preserves_state : preserves I state.
Proof. intros w Hw. unfold state. by destruct (_state w). Qed.

Lemma preserves_update_state f :
  (forall st, okS (Some st) (Some (f st))) -> preserves I (update_state f).
Proof.
  intros Hf w Hw. unfold update_state, bind, state.
  destruct (_state w) as [st|] eqn:Hst; simpl; [|done].
  apply (stable_state _ _ _ HI); [|done]. rewrite Hst. apply Hf.
Qed.

Lemma preserves_update_field f :
  (forall st, status (f st) = status st) -> preserves I (update_state f).
Proof. intros Hf. apply preserves_update_state. intros st. by apply HK. Qed.

Lemma preserves_cache_dump : preserves I cache_dump.
Proof.
  intros w Hw. unfold cache_dump, bind, state.
  destruct (_state w) as [st|]; simpl; [|done].
  apply (stable_emit _ _ _ HI); [by apply HE|].
  by apply (stable_cache _ _ _ HI).
Qed.

Lemma preserves_state_context {A} (body : M A) :
  preserves I body -> preserves I (state_context body).
Proof.
  intros Hb. apply preserves_try_finally; [done|].
  apply preserves_fail_after, preserves_cache_dump.
Qed.

Lemma preserves_wait_for_status s : preserves I (wait_for_status s).
Proof.
  apply preserves_bind; [apply preserves_state|].
  intros st. destruct (bool_decide _); [apply preserves_ret|apply preserves_block].
Qed.

Lemma preserves_deque_append ack_id event :
  preserves I (deque_append ack_id event).
Proof. intros w Hw. simpl. by apply (stable_deque _ _ _ HI). Qed.

Lemma preserves_call method kwargs :
  preserves I (_call_task_contract_method env method kwargs).
Proof.
  intros w Hw. destruct (_state w) as [st|] eqn:Hst.
  - rewrite (call_unfold env _ _ _ _ Hst). revert w Hw Hst.
    intros w Hw _. revert w Hw.
    apply preserves_bind.
    + repeat match goal with
             | |- preserves _ (if ?b then _ else _) => destruct b
             end;
        try apply preserves_raise; try apply preserves_ret.
      unfold contract_func. apply preserves_bind.
      * by apply preserves_await.
      * intros h. apply preserves_ret.
    + intros waiter. apply preserves_bind.
      * by apply preserves_await.
      * intros _. apply preserves_state_context, preserves_bind.
        -- by apply preserves_update_field.
        -- intros _. by apply preserves_update_field.
  - unfold _call_task_contract_method, bind, state. by rewrite Hst.
Qed.

Lemma preserves_report_error :
  writes okS Aborted -> preserves I (_report_error env cfg).
Proof.
  intros HW. apply preserves_bind.
  - apply preserves_state_context, preserves_update_state, HW.
  - intros _. apply preserves_try_except.
    + apply preserves_bind; [apply preserves_state|].
      intros st. apply preserves_call.
    + intros e handler He. destruct e; simplify_eq. by apply preserves_tell.
Qed.

Lemma preserves_get_task : preserves I (get_task env cfg).
Proof.
  apply preserves_bind; [by apply preserves_await|].
  intros task. destruct (_ || _); apply preserves_ret.
Qed.

Lemma preserves_relay_get_task_retry attempts n tid :
  preserves I (relay_get_task_retry env attempts n tid).
Proof.
  revert n. induction attempts as [|k IH]; intros n w Hw; simpl;
    pose proof (preserves_await (RelayGetTask tid)
                  (fun t => relay_get_task env t tid) Logic.I w Hw) as Ha;
    destruct (await _ _ w) as [[a|e|] w']; simpl in *; try done;
    destruct (should_retry e); try done.
  revert w' Ha. clear w Hw.
  change (preserves I (tell (LogError e) >>
                       tell (Sleep (if (n <? 30)%nat then 1 else 10)) >>
                       relay_get_task_retry env k (S n) tid)).
  apply preserves_bind; [by apply preserves_tell|]. intros _.
  apply preserves_bind; [by apply preserves_tell|]. intros _. apply IH.
Qed.

Lemma preserves_task_created tid rd :
  writes okS Executing -> writes okS Aborted ->
  preserves I (task_created env cfg tid rd).
Proof.
  intros HWe HWa. unfold task_created.
  apply preserves_bind; [apply preserves_wait_for_status|]. intros _.
  apply preserves_bind.
  { by apply preserves_state_context, preserves_update_field. }
  intros _. apply preserves_bind; [apply preserves_relay_get_task_retry|].
  intros task. destruct (self_distributed cfg).
  - apply preserves_bind; [by apply preserves_await|]. intros _.
    apply preserves_bind; [|intros _; apply preserves_ret].
    apply preserves_state_context, preserves_update_state, HWe.
  - apply preserves_try_except.
    + apply preserves_bind.
      { apply preserves_bind; [by apply preserves_await|].
        intros out. apply preserves_ret. }
      intros next_event. apply preserves_bind.
      { apply preserves_state_context, preserves_update_state, HWe. }
      intros _. apply preserves_bind; [by apply preserves_await|].
      intros _. apply preserves_ret.
    + intros e handler He. destruct e; simplify_eq.
      apply preserves_bind; [by apply preserves_tell|]. intros _.
      apply preserves_bind; [|intros _; apply preserves_ret].
      by apply preserves_fail_after, preserves_report_error.
Qed.

Lemma preserves_result_ready tid hashes fs :
  writes okS ResultUploaded -> writes okS Aborted ->
  preserves I (result_ready env cfg tid hashes fs).
Proof.
  intros HWu HWa. unfold result_ready.
  apply preserves_bind; [apply preserves_wait_for_status|]. intros _.
  apply preserves_state_context.
  apply preserves_bind; [apply preserves_state|]. intros st.
  apply preserves_bind.
  - destruct (_ =? _)%nat; [|apply preserves_ret].
    intros w Hw.
    destruct (make_result_commitments env (trace w) hashes) as [[res com] non].
    revert w Hw. apply preserves_bind.
    + apply preserves_try_except.
      * apply preserves_bind; [apply preserves_call|].
        intros _. apply preserves_ret.
      * intros e handler He. destruct e; simplify_eq.
        destruct (contains _ _); [|apply preserves_ret].
        apply preserves_bind; [by apply preserves_report_error|].
        intros _. apply preserves_ret.
    + intros [|]; [apply preserves_ret|].
      apply preserves_bind; [by apply preserves_update_field|].
      intros _. apply preserves_ret.
  - intros [|]; [apply preserves_ret|].
    apply preserves_bind; [apply preserves_update_state, HWu|].
    intros _. by apply preserves_update_field.
Qed.

Lemma preserves_commitment_ready tid :
  writes okS Disclosed -> preserves I (commitment_ready env cfg tid).
Proof.
  intros HW. unfold commitment_ready.
  apply preserves_bind; [apply preserves_wait_for_status|]. intros _.
  apply preserves_state_context.
  apply preserves_bind; [apply preserves_state|]. intros st.
  destruct (negb (0 <? _)%nat); [apply preserves_raise|].
  apply preserves_bind; [|intros _; apply preserves_update_state, HW].
  destruct (negb (disclosed st)); [|apply preserves_ret].
  apply preserves_bind; [apply preserves_call|].
  intros _. by apply preserves_update_field.
Qed.

Lemma preserves_task_success tid node :
  writes okS Success -> preserves I (task_success env cfg tid node).
Proof.
  intros HW. unfold task_success.
  apply preserves_bind; [apply preserves_wait_for_status|]. intros _.
  apply preserves_state_context.
  apply preserves_bind; [|intros _; apply preserves_update_state, HW].
  destruct (String.eqb _ _); [|apply preserves_ret].
  apply preserves_bind; [apply preserves_state|]. intros st.
  apply preserves_bind; [by apply preserves_await|]. intros _.
  apply preserves_call.
Qed.

Lemma preserves_task_aborted tid :
  writes okS Aborted -> preserves I (task_aborted tid).
Proof.
  intros HW. apply preserves_state_context, preserves_update_state, HW.
Qed.

(** Every handler of the inference runner, through [process_event]. *)
Lemma preserves_process_event event :
  (forall s, writes okS s) ->
  preserves I (process_event (impl env cfg) event).
Proof.
  intros HW. unfold process_event.
  destruct event; simpl;
    (apply preserves_bind; [|intros _; apply preserves_ret]).
  - by apply preserves_task_created.
  - by apply preserves_result_ready.
  - by apply preserves_commitment_ready.
  - by apply preserves_task_success.
  - by apply preserves_task_aborted.
Qed.

Lemma preserves_run_event ack_id event :
  (forall s, writes okS s) ->
  preserves I (_run_event env (impl env cfg) ack_id event).
Proof.
  intros HW. apply preserves_try_except.
  - apply preserves_bind; [by apply preserves_process_event|].
    intros finished. apply preserves_bind; [by apply preserves_await|].
    intros _. apply preserves_ret.
  - intros e handler He.
    destruct e; simplify_eq;
      (apply preserves_bind; [apply preserves_deque_append|]);
      intros _; apply preserves_raise.
Qed.

Lemma preserves_cancel_suspended suspended :
  preserves I (cancel_suspended suspended).
Proof.
  apply preserves_for_each. intros [ack_id event].
  apply preserves_deque_append.
Qed.

Lemma after_handler_invariant ack_id event others stay out :
  I (snd out) -> I (snd (after_handler ack_id event others stay out)).
Proof.
  destruct out as [[[|]|e|] w]; simpl; intros Hw; try done;
    by apply preserves_cancel_suspended.
Qed.

Lemma loop_step_invariant s suspended w :
  (forall st, writes okS st) ->
  I w -> I (snd (loop_step env (impl env cfg) s suspended w)).
Proof.
  intros HW Hw. destruct s as [ack_id event| |k| |]; simpl.
  - by apply (stable_deque _ _ _ HI).
  - unfold recv. destruct (_deque w) as [|[ack_id event] rest]; [done|].
    apply after_handler_invariant, preserves_run_event; [done|].
    by apply (stable_deque _ _ _ HI).
  - destruct (suspended !! k) as [[ack_id event]|]; [|done].
    by apply after_handler_invariant, preserves_run_event.
  - by apply preserves_cancel_suspended.
  - by apply preserves_cancel_suspended.
Qed.

Lemma loop_run_invariant sched suspended w :
  (forall st, writes okS st) ->
  I w -> I (snd (loop_run env (impl env cfg) sched suspended w)).
Proof.
  intros HW. revert suspended w.
  induction sched as [|s sched IH]; intros suspended w Hw; simpl; [done|].
  pose proof (loop_step_invariant s suspended w HW Hw) as Hs.
  destruct (loop_step _ _ _ _ _) as [[suspended'| |e] w']; simpl in *;
    [by apply IH|done..].
Qed.

Lemma preserves_cleanup :
  (forall st, okS (Some st) None) -> preserves I (cleanup env cfg).
Proof.
  intros HD w Hw. unfold cleanup. destruct (negb (_cleaned w)); [|done].
  revert w Hw.
  apply preserves_bind; [by apply preserves_tell|]. intros _.
  apply preserves_bind; [by apply preserves_tell|]. intros _.
  apply preserves_bind; [by apply preserves_tell|]. intros _.
  apply preserves_bind.
  { apply preserves_fail_after, preserves_bind; [apply preserves_state|].
    intros st. by apply preserves_await. }
  intros _. apply preserves_bind.
  - intros w Hw. unfold state_deleter.
    destruct (_state w) as [st|] eqn:Hst; simpl; [|done].
    apply (stable_state _ _ _ HI); [|done]. rewrite Hst. apply HD.
  - intros _ w Hw. simpl. by apply (stable_cleaned _ _ _ HI).
Qed.

Lemma preserves_drain :
  (forall st, okS (Some st) None) ->
  preserves I (drain env (impl env cfg)).
Proof.
  intros HD. apply preserves_fail_after. intros w Hw.
  destruct (match _state w with Some _ => _ | None => _ end).
  - revert w Hw.
    assert (forall dq : list (Z * TaskEvent), preserves I
      (for_each dq (fun '(ack_id, _) =>
         await (QueueAck ack_id) (fun t => outcome (queue_ack env t ack_id)))
       >> TaskRunner.cleanup (impl env cfg))) as Hp; [|by intros w; apply Hp].
    intros dq. apply preserves_bind.
    + apply preserves_for_each. intros [ack_id event].
      by apply preserves_await.
    + intros _. by apply preserves_cleanup.
  - revert w Hw.
    assert (forall dq : list (Z * TaskEvent), preserves I
      (for_each dq (fun '(ack_id, _) =>
         await (QueueNoAck ack_id)
               (fun t => outcome (queue_no_ack env t ack_id))))) as Hp;
      [|by intros w; apply Hp].
    intros dq. apply preserves_for_each. intros [ack_id event].
    by apply preserves_await.
Qed.

Lemma preserves_init :
  (forall st, okS None (Some st)) -> writes okS Aborted ->
  preserves I (init cfg (impl env cfg)).
Proof.
  intros HN HW w Hw. unfold init.
  assert (I (snd (load_or_create cfg w))) as Hl.
  { unfold load_or_create. destruct (_state w) as [st|] eqn:Hst; [done|].
    destruct (cache w !! _); simpl;
      (apply (stable_state _ _ _ HI); [by rewrite Hst|done]). }
  destruct (load_or_create cfg w) as [need_dump w1]; simpl in Hl.
  assert (preserves I (init_checks (impl env cfg) need_dump)) as Hc.
  { unfold init_checks. apply preserves_bind; [apply preserves_state|].
    intros st. destruct (is_terminal _); [apply preserves_ret|].
    apply preserves_bind; [apply preserves_get_task|].
    intros [task|].
    - apply preserves_bind; [apply preserves_state|]. intros st'.
      destruct (bool_decide _); [|apply preserves_ret].
      apply preserves_bind; [by apply preserves_update_field|].
      intros _. apply preserves_ret.
    - apply preserves_bind; [apply preserves_update_state, HW|].
      intros _. apply preserves_ret. }
  assert (forall nd, preserves I (init_finally nd)) as Hf.
  { intros nd w' Hw'. unfold init_finally.
    destruct (_state w'); [|done]. destruct nd; [|done].
    by apply preserves_cache_dump. }
  specialize (Hc w1 Hl).
  destruct (init_checks _ _ w1) as [[[r nd]|e|] w2]; simpl in Hc; [| |done].
  - by apply (preserves_try_finally (ret r) (init_finally nd)
                (preserves_ret r) (Hf nd)).
  - by apply (preserves_try_finally (raise e) (init_finally need_dump)
                (preserves_raise e) (Hf need_dump)).
Qed.
End Preservation.

(** ** The status along the protocol *)

Section StatusProtocol.
Import TaskRunner InferenceTaskRunner Scenario.

Lemma status_in_stable S :
  Stable (status_in S) (fun _ => True) (status_moves S).
Proof.
  split; try done.
  intros o w Ho (st & Hst & HS). destruct (Ho st Hst HS) as (st' & -> & HS').
  by exists st'.
Qed.

Lemma status_moves_keeps S : keeps (status_moves S).
Proof.
  intros st st' Heq st0 [= <-] HS. exists st'. by rewrite Heq.
Qed.

Lemma status_moves_writes (S : TaskStatus -> Prop) s :
  S s -> writes (status_moves S) s.
Proof. intros HS st st0 _ _. by eexists. Qed.

(** A handler behind the barrier [s]: from [s] it leaves the status at
    [s], at the next stage, or at Aborted; from another status it stays
    suspended and changes nothing. *)
Lemma barrier_step (m : M bool) s w st :
  _state w = Some st ->
  (status st <> s -> m w = (Blocked, w)) ->
  preserves (status_in (status_step s)) m ->
  exists st', _state (snd (m w)) = Some st' /\
    status_step (status st) (status st') /\
    (status st <> s -> status st' = status st).
Proof.
  intros Hst Hblock Hpres.
  destruct (decide (status st = s)) as [Hs|Hs].
  - destruct (Hpres w) as (st' & Hst' & Hstep).
    { exists st. split; [done|]. left. done. }
    exists st'. rewrite Hs. done.
  - rewrite (Hblock Hs). exists st. split; [done|]. split; [by left|done].
Qed.

Lemma process_event_step env cfg event w st :
  _state w = Some st ->
  exists st',
    _state (snd (process_event (impl env cfg) event w)) = Some st' /\
    status_step (status st) (status st') /\
    (status st = Aborted -> status st' = Aborted) /\
    (status st = Success -> kind event <> "TaskAborted" ->
     status st' = Success).
Proof.
  intros Hst.
  pose proof (status_in_stable) as HS.
  pose proof (status_moves_keeps) as HK.
  assert (forall s (m : M bool),
    (status st <> s -> m w = (Blocked, w)) ->
    preserves (status_in (status_step s)) m ->
    s <> Aborted -> s <> Success ->
    exists st', _state (snd (m w)) = Some st' /\
      status_step (status st) (status st') /\
      (status st = Aborted -> status st' = Aborted) /\
      (status st = Success -> kind event <> "TaskAborted" ->
       status st' = Success)) as Hbar.
  { intros s m Hb Hp Hna Hns.
    destruct (barrier_step m s w st Hst Hb Hp) as (st' & Hst' & Hstep & Hne).
    exists st'. repeat split; [done..| |].
    - intros Ha. rewrite Hne; congruence.
    - intros Ha _. rewrite Hne; congruence. }
  destruct event as [tid rd|tid hs fs|tid|tid node|tid].
  - refine (Hbar Pending
              (InferenceTaskRunner.task_created env cfg tid rd >> ret false)
              _ _ _ _); [| |done..].
    + intros Hs. unfold bind.
      by rewrite (task_created_blocked env cfg _ _ _ _ Hst Hs).
    + apply preserves_bind; [|intros ?; apply preserves_ret].
      eapply preserves_task_created; [apply HS|done|apply HK|..];
        apply status_moves_writes; [by right; right|by right; left].
  - refine (Hbar Executing
              (InferenceTaskRunner.result_ready env cfg tid hs fs >> ret false)
              _ _ _ _); [| |done..].
    + intros Hs. unfold bind.
      by rewrite (result_ready_blocked env cfg _ _ _ _ _ Hst Hs).
    + apply preserves_bind; [|intros ?; apply preserves_ret].
      eapply preserves_result_ready; [apply HS|done|apply HK|..];
        apply status_moves_writes; [by right; right|by right; left].
  - refine (Hbar ResultUploaded
              (InferenceTaskRunner.commitment_ready env cfg tid >> ret false)
              _ _ _ _); [| |done..].
    + intros Hs. unfold bind.
      by rewrite (commitment_ready_blocked env cfg _ _ _ Hst Hs).
    + apply preserves_bind; [|intros ?; apply preserves_ret].
      eapply preserves_commitment_ready; [apply HS|done|apply HK|].
      apply status_moves_writes. by right; right.
  - refine (Hbar Disclosed
              (InferenceTaskRunner.task_success env cfg tid node >> ret true)
              _ _ _ _); [| |done..].
    + intros Hs. unfold bind.
      by rewrite (task_success_blocked env cfg _ _ _ _ Hst Hs).
    + apply preserves_bind; [|intros ?; apply preserves_ret].
      eapply preserves_task_success; [apply HS|done|apply HK|].
      apply status_moves_writes. by right; right.
  - change (process_event (impl env cfg) (TaskAborted tid) w)
      with ((InferenceTaskRunner.task_aborted tid >> ret true) w).
    unfold task_aborted, bind.
    rewrite (state_context_update _ _ _ Hst). simpl.
    eexists. split; [done|]. simpl. split; [by right; left|done].
Qed.

Lemma handle_events_keeps_state env cfg events w st :
  _state w = Some st ->
  exists st', _state (handle_events env cfg events w) = Some st'.
Proof.
  revert w st. induction events as [|event events IH]; intros w st Hst; simpl.
  - by exists st.
  - destruct (process_event_step env cfg event w st Hst) as (st' & Hst' & _).
    by apply (IH _ st').
Qed.


End StatusProtocol.

(** ** init *)

Section Init.
Import TaskRunner InferenceTaskRunner.

(** C8.  [init] on a runner that holds no state yet, with [st0] the state
    loaded from the cache (or the fresh Pending state when the cache has
    none).  The code returns the success flag, so "skip" is the answer
    [Done false].  If [st0] is already Success or Aborted, [init] skips
    and changes nothing.  If the chain answers with id zero or another
    id, the status is forced to Aborted and [init] skips.  Otherwise the
    timeout of the chain is copied into the state and [init] succeeds.
    In every case, an exception of the chain call included, the state in
    memory at the end is the state in the cache. *)
Theorem init_skips_or_adopts_chain_timeout env cfg w :
  _state w = None ->
  (forall st, cache w !! self_task_id cfg = Some st ->
              task_id st = self_task_id cfg) ->
  let tid := self_task_id cfg in
  let st0 := default (fresh_state cfg) (cache w !! tid) in
  let out := init cfg (impl env cfg) w in
  cache (snd out) !! tid = _state (snd out) /\
  if is_terminal (status st0) then
    fst out = Done false /\ _state (snd out) = Some st0 /\
    trace (snd out) = trace w /\ cache (snd out) = cache w
  else
    match chain_get_task env (trace w) tid with
    | inl e => fst out = Raised e /\ _state (snd out) = Some st0
    | inr task =>
        if (chain_id task =? 0)%Z || negb (chain_id task =? tid)%Z then
          fst out = Done false /\
          _state (snd out) = Some (set_status Aborted st0)
        else
          fst out = Done true /\
          _state (snd out) = Some (set_timeout (chain_timeout task) st0)
    end.
Proof.
  intros Hst Hkey tid st0 out. subst out st0 tid.
  destruct w as [s dq c ch t]; simpl in Hst, Hkey; subst s.
  unfold init, load_or_create. cbn [_state cache].
  destruct (ch !! self_task_id cfg) as [st|] eqn:Hch; cbn [default].
  - specialize (Hkey st eq_refl).
    destruct st as [tid0 rd tmo sts res0 dis fs0 wm wh]; simpl in Hkey;
      subst tid0.
    unfold init_checks, init_finally, impl, get_task. unfold_runner.
    cbn -[is_terminal]. destruct (is_terminal sts) eqn:Hterm; cbn.
    { done. }
    destruct (chain_get_task env t (self_task_id cfg)) as [e|task]; cbn.
    { done. }
    destruct (_ || _); cbn.
    { by rewrite lookup_insert_eq. }
    destruct (decide (tmo = chain_timeout task)) as [->|Hne].
    + rewrite bool_decide_false by (intros Hn; by apply Hn). cbn. done.
    + rewrite bool_decide_true by done. cbn. by rewrite lookup_insert_eq.
  - unfold init_checks, init_finally, impl, get_task, fresh_state.
    unfold_runner. cbn -[is_terminal].
    change (is_terminal Pending) with false. cbn.
    destruct (chain_get_task env t (self_task_id cfg)) as [e|task]; cbn.
    { by rewrite lookup_insert_eq. }
    destruct (_ || _); cbn.
    { by rewrite lookup_insert_eq. }
    destruct (decide (0 = chain_timeout task)%Z) as [Heq|Hne].
    + rewrite bool_decide_false by (intros Hn; by apply Hn). cbn.
      rewrite lookup_insert_eq. by rewrite <- Heq.
    + rewrite bool_decide_true by done. cbn. by rewrite lookup_insert_eq.
Qed.
End Init.

(** ** run: the drain *)

Section Drain.
Import TaskRunner.
Variable env : Env.
Variable cfg : Config.
Variable impl : Impl.

Lemma emit_all_nil w : emit_all [] w = w.
Proof. destruct w. unfold emit_all. simpl. by rewrite app_nil_r. Qed.

Lemma emit_all_cons e es w : emit_all (e :: es) w = emit_all es (emit e w).
Proof. unfold emit_all, emit. simpl. by rewrite <- app_assoc. Qed.

Lemma emit_all_snoc e es w : emit_all (es ++ [e]) w = emit e (emit_all es w).
Proof. unfold emit_all, emit. simpl. by rewrite app_assoc. Qed.

(** Acking (or no-acking) every buffered pair, when the queue answers. *)
Lemma for_each_await_all (mk : Z -> IO) (answer : list IO -> Z -> option exn)
    (dq : list (Z * TaskEvent)) w :
  (forall t ack_id, answer t ack_id = None) ->
  for_each dq
    (fun '(ack_id, _) => await (mk ack_id) (fun t => outcome (answer t ack_id))) w
  = (Done tt, emit_all (map mk (ack_ids dq)) w).
Proof.
  intros Hans. revert w.
  induction dq as [|[ack_id event] dq IH]; intros w; simpl.
  - by rewrite emit_all_nil.
  - unfold bind, await. rewrite Hans. simpl. rewrite IH.
    by rewrite emit_all_cons.
Qed.

Lemma drain_test w :
  match _state w with
  | Some st =>
      bool_decide (status st = Aborted) || bool_decide (status st = Success)
  | None => false
  end = at_terminal_status w.
Proof.
  unfold at_terminal_status, is_terminal.
  destruct (_state w) as [st|]; [|done]. by destruct (status st).
Qed.

End Drain.

(** ** run: the deadline *)

Section Deadline.
Import TaskRunner InferenceTaskRunner.
Variable env : Env.
Variable cfg : Config.

Lemma loop_run_app (imp : Impl) pre post suspended w :
  loop_run env imp (pre ++ post) suspended w
  = match loop_run env imp pre suspended w with
    | (Continue suspended', w') => loop_run env imp post suspended' w'
    | stop => stop
    end.
Proof.
  revert suspended w. induction pre as [|s pre IH]; intros suspended w;
    simpl; [done|].
  destruct (loop_step env imp s suspended w) as [[suspended'| |e] w'];
    [apply IH|done..].
Qed.

Lemma extends_quietly_stable t0 :
  Stable (extends_quietly t0) not_cancel (fun _ _ => True).
Proof.
  split; try done.
  intros e w He (delta & Ht & Hc). exists (delta ++ [e]). simpl.
  rewrite Ht, <- app_assoc. split; [done|].
  rewrite cancellations_app, Hc. by destruct e.
Qed.

Lemma extends_quietly_refl w : extends_quietly (trace w) w.
Proof. exists []. by rewrite app_nil_r. Qed.

Lemma extends_quietly_cancellations t0 w :
  extends_quietly t0 w -> cancellations (trace w) = cancellations t0.
Proof.
  intros (delta & -> & Hc). rewrite cancellations_app. lia.
Qed.

(** [cancel_task]: one [cancelTask] call; a revert or any other error of
    the call is logged and the method returns; only a cancellation of the
    runner itself is raised again. *)
Lemma cancel_task_spec w :
  let tid := self_task_id cfg in
  cancel_task env cfg w
  = match chain_cancel_task env (trace w) tid with
    | None => (Done tt, emit (ChainCancelTask tid) w)
    | Some Cancelled => (Raised Cancelled, emit (ChainCancelTask tid) w)
    | Some (TxRevertedError reason) =>
        (Done tt, emit (LogError (TxRevertedError reason))
                    (emit (ChainCancelTask tid) w))
    | Some e => (Done tt, emit (LogDebug e) (emit (ChainCancelTask tid) w))
    end.
Proof.
  unfold cancel_task. unfold_runner. cbv beta.
  destruct (chain_cancel_task env (trace w) (self_task_id cfg)) as [e|];
    [|done]. by destruct e.
Qed.

(** When the deadline passes, the [try] block of [run] ends with
    [TimeoutError]; the state is there and no [cancelTask] was called. *)
Lemma deadline_raises_timeout sched w w1 :
  deadline_passes env cfg sched w w1 ->
  run_try env cfg (impl env cfg) sched w = (Raised TimeoutError, w1) /\
  (exists st1, _state w1 = Some st1) /\
  extends_quietly (trace w) w1.
Proof.
  intros (w0 & st0 & Hinit & Hst0 & Hcase).
  assert (extends_quietly (trace w) w0) as Hq0.
  { pose proof (preserves_init env cfg _ _ _ (extends_quietly_stable (trace w))
                  (fun _ H => H) (fun _ _ _ => Logic.I) (fun _ => Logic.I)
                  (fun _ => Logic.I) w (extends_quietly_refl w)) as Hp.
    by rewrite Hinit in Hp. }
  unfold run_try, bind. rewrite Hinit. cbn [negb].
  unfold state. rewrite Hst0.
  destruct Hcase as [(Hle & ->)|(Hle & pre & post & suspended & w' & -> & Hloop & ->)];
    rewrite Hle.
  - eauto.
  - unfold run_loop. rewrite loop_run_app, Hloop. cbn [loop_run loop_step].
    split; [done|]. split.
    + assert (status_in (fun _ => True) w') as Hin.
      { pose proof (loop_run_invariant env cfg _ _ _
          (status_in_stable (fun _ => True)) (fun _ _ => Logic.I)
          (status_moves_keeps _) pre [] w0
          (fun s => status_moves_writes (fun _ => True) s Logic.I)) as Hp.
        rewrite Hloop in Hp. apply Hp. by exists st0. }
      destruct (preserves_cancel_suspended _ _ _
                  (status_in_stable (fun _ => True)) suspended w' Hin)
        as (st1 & Hst1 & _).
      by exists st1.
    + apply (preserves_cancel_suspended _ _ _
               (extends_quietly_stable (trace w))).
      pose proof (loop_run_invariant env cfg _ _ _
          (extends_quietly_stable (trace w)) (fun _ H => H)
          (fun _ _ _ => Logic.I) pre [] w0 (fun _ _ => Logic.I) Hq0) as Hp.
      by rewrite Hloop in Hp.
Qed.

End Deadline.

(** ** The scenarios of section 8, as instances of the theorems *)

Section Scenarios.
Import TaskRunner InferenceTaskRunner Scenario.






(** The budget is already used up when [run] starts. *)
Lemma deadline_at_start :
  deadline_passes env_late cfg7 [] runner_new
    (snd (init cfg7 (inference env_late) runner_new)).
Proof.
  exists (snd (init cfg7 (inference env_late) runner_new)),
         (mkTaskState 7 0 1000 Pending [] false [] "" []).
  split; [vm_compute; reflexivity|]. split; [vm_compute; reflexivity|].
  left. split; [vm_compute; reflexivity|reflexivity].
Qed.

(** The chain does not know task 7, which the cache holds as executing. *)
Lemma init_witness :
  let out := init cfg7 (inference env_no_task) runner_executing in
  cache (snd out) !! 7%Z = _state (snd out) /\
  fst out = Done false /\
  _state (snd out) = Some (st7 Aborted).
Proof.
  intros out.
  destruct (init_skips_or_adopts_chain_timeout env_no_task cfg7
              runner_executing eq_refl) as (H1 & H2).
  - intros st. vm_compute. intros [= <-]. reflexivity.
  - split; [exact H1|]. exact H2.
Defined.

End Scenarios.

(** ** What the handlers may change, and that they do not hang *)

Section Framing.
Import TaskRunner InferenceTaskRunner.
Variable env : Env.
Variable cfg : Config.
Variable P : IO -> Prop.

Lemma runs_ret {A} (a : A) : runs P (ret a).
Proof. split; [by intros w|by intros I _ w]. Qed.

Lemma runs_raise {A} e : runs P (@raise A e).
Proof. split; [by intros w|by intros I _ w]. Qed.

Lemma runs_bind {A B} (m : M A) (k : A -> M B) :
  runs P m -> (forall a, runs P (k a)) -> runs P (bind m k).
Proof.
  intros [Tm Fm] Hk. split.
  - intros w. unfold bind. specialize (Tm w).
    destruct (m w) as [[a|e|] w']; simpl in *; [apply Hk|done..].
  - intros I HF. apply preserves_bind; [by apply Fm|].
    intros a. by apply Hk.
Qed.

Lemma runs_bind_ret {A B} (a : A) (k : A -> M B) :
  runs P (k a) -> runs P (bind (ret a) k).
Proof. intros H. exact H. Qed.

Lemma runs_try_except {A} (m : M A) h :
  runs P m ->
  (forall e handler, h e = Some handler -> runs P handler) ->
  runs P (try_except m h).
Proof.
  intros [Tm Fm] Hh. split.
  - intros w. unfold try_except. specialize (Tm w).
    destruct (m w) as [[a|e|] w']; simpl in *; [done| |done].
    destruct (h e) as [handler|] eqn:He; [|done]. by apply (Hh _ _ He).
  - intros I HF. apply preserves_try_except; [by apply Fm|].
    intros e handler He. by apply (Hh _ _ He).
Qed.

Lemma runs_try_finally {A} (m : M A) fin :
  runs P m -> runs P fin -> runs P (try_finally m fin).
Proof.
  intros [Tm Fm] [Tf Ff]. split.
  - intros w. unfold try_finally. specialize (Tm w).
    destruct (m w) as [[a|e|] w']; simpl in *; [| |done];
      specialize (Tf w'); by destruct (fin w') as [[[]|e'|] w''].
  - intros I HF. apply preserves_try_finally; [by apply Fm|by apply Ff].
Qed.

Lemma runs_fail_after {A} delay shield (body : M A) :
  runs P body -> runs P (fail_after delay shield body).
Proof.
  intros [Tb Fb]. split.
  - intros w. unfold fail_after.
    specialize (Tb (emit (ScopeEnter delay shield) w)).
    destruct (body _) as [[a|e|] w']; simpl in *; [done| |done].
    by destruct e.
  - intros I HF w Hw. unfold fail_after.
    assert (I (emit (ScopeEnter delay shield) w)) as Hw'
      by (apply (frame_emit _ _ HF); [by intros []|done|done]).
    specialize (Fb I HF _ Hw'). specialize (Tb (emit (ScopeEnter delay shield) w)).
    destruct (body _) as [[a|e|] w']; simpl in *; [| |done];
      [|destruct e]; simpl; apply (frame_emit _ _ HF); try done;
      by intros [].
Qed.

Lemma runs_for_each {A} (xs : list A) body :
  (forall x, runs P (body x)) -> runs P (for_each xs body).
Proof.
  intros Hb. induction xs as [|x xs IH]; simpl.
  - apply runs_ret.
  - apply runs_bind; [apply Hb|done].
Qed.

Lemma runs_await {A} call (answer : list IO -> exn + A) :
  ~ is_dump call -> (is_external call = true -> P call) ->
  runs P (await call answer).
Proof.
  intros Hd Hc. split.
  - intros w. unfold await. by destruct (answer (trace w)).
  - intros I HF w Hw. unfold await.
    destruct (answer (trace w)); simpl; by apply (frame_emit _ _ HF).
Qed.

Lemma runs_tell call :
  ~ is_dump call -> (is_external call = true -> P call) -> runs P (tell call).
Proof.
  intros Hd Hc. split; [by intros w|].
  intros I HF w Hw. simpl. by apply (frame_emit _ _ HF).
Qed.

Lemma runs_state : runs P state.
Proof.
  split.
  - intros w. unfold state. by destruct (_state w).
  - intros I HF w Hw. unfold state. by destruct (_state w).
Qed.

Lemma runs_update_state f : handler_update f -> runs P (update_state f).
Proof.
  intros Hf. split.
  - intros w. unfold update_state, bind, state. by destruct (_state w).
  - intros I HF w Hw. unfold update_state, bind, state.
    destruct (_state w) as [st|] eqn:Hst; simpl; [|done].
    by apply (frame_update _ _ HF).
Qed.

Lemma runs_cache_dump : runs P cache_dump.
Proof.
  split.
  - intros w. unfold cache_dump, bind, state. by destruct (_state w).
  - intros I HF w Hw. unfold cache_dump, bind, state.
    destruct (_state w) as [st|] eqn:Hst; simpl; [|done].
    by apply (frame_dump _ _ HF).
Qed.

Lemma runs_state_context {A} (body : M A) :
  runs P body -> runs P (state_context body).
Proof.
  intros Hb. apply runs_try_finally; [done|].
  apply runs_fail_after, runs_cache_dump.
Qed.

Lemma runs_bind_post {A B} (Q : A -> Prop) (m : M A) (k : A -> M B) :
  runs P m -> (forall w a w', m w = (Done a, w') -> Q a) ->
  (forall a, Q a -> runs P (k a)) -> runs P (bind m k).
Proof.
  intros [Tm Fm] HQ Hk. split.
  - intros w. unfold bind. specialize (Tm w). specialize (HQ w).
    destruct (m w) as [[a|e|] w']; simpl in *; [|done..].
    by apply (Hk a (HQ _ _ eq_refl)).
  - intros I HF w Hw. unfold bind. specialize (HQ w).
    pose proof (Fm I HF w Hw) as Hm.
    destruct (m w) as [[a|e|] w']; simpl in *; [|done..].
    by apply (Hk a (HQ _ _ eq_refl)).
Qed.

Lemma runs_contract_func method kwargs :
  P (ChainCall method kwargs) -> runs P (contract_func env method kwargs).
Proof.
  intros Hc. apply runs_bind; [|intros h; apply runs_ret].
  apply runs_await; [by intros []|done].
Qed.

Lemma runs_call method kwargs :
  (forall kw, P (ChainCall method kw)) -> (forall h, P (TxWait method h)) ->
  runs P (_call_task_contract_method env method kwargs).
Proof.
  intros Hc Hw. unfold _call_task_contract_method.
  apply runs_bind; [apply runs_state|]. intros st.
  apply (runs_bind_post (fun waiter => waiter_method waiter = method)).
  - destruct (_ && _).
    + unfold submit_task_result_commitment, disclose_task_result,
        report_results_uploaded, report_task_error.
      repeat match goal with
             | |- context [String.eqb method ?s] =>
                 destruct (String.eqb_spec method s) as [Heq|_]
             end;
        first [ exact (runs_raise _)
              | rewrite <- Heq; apply runs_bind_ret, runs_contract_func, Hc ].
    + destruct (String.eqb_spec (waiting_tx_method st) method) as [Heq|_];
        simpl; [|apply runs_raise].
      destruct (0 <? _)%nat; [apply runs_ret|apply runs_raise].
  - intros w a w'. destruct (_ && _).
    + unfold submit_task_result_commitment, disclose_task_result,
        report_results_uploaded, report_task_error.
      repeat match goal with
             | |- context [String.eqb method ?s] =>
                 destruct (String.eqb_spec method s) as [Heq|_]
             end;
        unfold contract_func; unfold bind, ret, raise, await; try done;
        (destruct (chain_call _ _ _ _); [done|]; intros [= <- _]; by simpl).
    + destruct (String.eqb_spec (waiting_tx_method st) method) as [Heq|_];
        simpl; [|done].
      destruct (0 <? _)%nat; [|done]. by intros [= <- _].
  - intros waiter Hm. apply runs_bind.
    + apply runs_await; [by intros []|]. intros _. rewrite Hm. apply Hw.
    + intros _. apply runs_state_context, runs_bind.
      * apply runs_update_state. constructor.
      * intros _. apply runs_update_state. constructor.
Qed.

Lemma runs_report_error :
  (forall kw, P (ChainCall "reportTaskError" kw)) ->
  (forall h, P (TxWait "reportTaskError" h)) ->
  runs P (_report_error env cfg).
Proof.
  intros Hc Hw. apply runs_bind.
  - apply runs_state_context, runs_update_state. constructor.
  - intros _. apply runs_try_except.
    + apply runs_bind; [apply runs_state|]. intros st. by apply runs_call.
    + intros e handler He. destruct e; simplify_eq.
      apply runs_tell; [by intros []|done].
Qed.

Lemma runs_relay_get_task_retry attempts n tid :
  P (RelayGetTask tid) -> P (Sleep 1) -> P (Sleep 10) ->
  runs P (relay_get_task_retry env attempts n tid).
Proof.
  intros Hr H1 H10. revert n. induction attempts as [|k IH]; intros n.
  - pose proof (runs_await (RelayGetTask tid)
                  (fun t => relay_get_task env t tid)
                  ltac:(by intros []) (fun _ => Hr)) as [Ta Fa].
    split.
    + intros w. simpl. specialize (Ta w).
      destruct (await _ _ w) as [[a|e|] w']; simpl in *; try done.
      by destruct (should_retry e).
    + intros I HF w Hw. simpl. specialize (Fa I HF w Hw).
      destruct (await _ _ w) as [[a|e|] w']; simpl in *; try done.
      by destruct (should_retry e).
  - pose proof (runs_await (RelayGetTask tid)
                  (fun t => relay_get_task env t tid)
                  ltac:(by intros []) (fun _ => Hr)) as [Ta Fa].
    assert (forall e, runs P (tell (LogError e) >>
                       tell (Sleep (if (n <? 30)%nat then 1 else 10)) >>
                       relay_get_task_retry env k (S n) tid)) as Hrest.
    { intros e. apply runs_bind; [apply runs_tell; [by intros []|done]|].
      intros _. apply runs_bind; [|intros _; apply IH].
      apply runs_tell; [by intros []|]. intros _. by destruct (n <? 30)%nat. }
    split.
    + intros w. simpl. specialize (Ta w).
      destruct (await _ _ w) as [[a|e|] w']; simpl in *; try done.
      destruct (should_retry e); [|done]. apply (Hrest e).
    + intros I HF w Hw. simpl. specialize (Fa I HF w Hw).
      destruct (await _ _ w) as [[a|e|] w']; simpl in *; try done.
      destruct (should_retry e); [|done]. by apply (Hrest e).
Qed.

(** A handler behind its barrier. *)
Lemma runs_behind_barrier {A} (m : M A) : runs P m -> behind_barrier P None m.
Proof. intros Hm. by exists m. Qed.

Lemma barrier_behind_barrier {A} s (rest : M A) :
  runs P rest -> behind_barrier P (Some s) (wait_for_status s >> rest).
Proof.
  intros Hr. exists (state >> rest). split.
  - apply runs_bind; [apply runs_state|done].
  - intros w. unfold waits_at, wait_for_status, bind, state.
    destruct (_state w) as [st|]; [|done]. by destruct (bool_decide _).
Qed.

Lemma behind_barrier_bind {A B} s (m : M A) (k : A -> M B) :
  behind_barrier P s m -> (forall a, runs P (k a)) ->
  behind_barrier P s (bind m k).
Proof.
  intros (rest & Hr & Hm) Hk. exists (bind rest k). split.
  - by apply runs_bind.
  - intros w. unfold bind. rewrite (Hm w). by destruct (waits_at s w).
Qed.

Lemma behind_barrier_preserves {A} s (m : M A) I :
  behind_barrier P s m -> Frame P I -> preserves I m.
Proof.
  intros (rest & [_ Hr] & Hm) HF w Hw. rewrite (Hm w).
  destruct (waits_at s w); [done|by apply Hr].
Qed.

Lemma behind_barrier_waits {A} s (m : M A) w :
  behind_barrier P s m ->
  if waits_at s w then m w = (Blocked, w) else fst (m w) <> Blocked.
Proof.
  intros (rest & [Hr _] & Hm). rewrite (Hm w).
  destruct (waits_at s w); [done|apply Hr].
Qed.

End Framing.

(** ** The footprint of each handler *)

Section HandlerFootprints.
Import TaskRunner InferenceTaskRunner.
Variable env : Env.
Variable cfg : Config.

Lemma task_created_behind_barrier tid rd :
  behind_barrier (footprint cfg (TaskCreated tid rd)) (Some Pending)
    (task_created env cfg tid rd).
Proof.
  apply barrier_behind_barrier.
  apply runs_bind.
  { apply runs_state_context, runs_update_state. constructor. }
  intros _. apply runs_bind.
  { apply runs_relay_get_task_retry; simpl; auto. }
  intros task. destruct (self_distributed cfg) eqn:Hd.
  - apply runs_bind.
    { apply runs_await; [by intros []|]. intros _. simpl. by rewrite Hd. }
    intros _. apply runs_bind; [|intros _; apply runs_ret].
    apply runs_state_context, runs_update_state. constructor.
  - apply runs_try_except.
    + apply (runs_bind_post _
               (fun event => exists hs fs,
                  event = TaskResultReady (self_task_id cfg) hs fs)).
      * apply runs_bind; [|intros out; apply runs_ret].
        apply runs_await; [by intros []|]. intros _. simpl. by rewrite Hd.
      * intros w a w'. unfold run_local_task, bind, await, ret.
        destruct (local_task _ _ _ _); [done|]. intros [= <- _]. eauto.
      * intros next_event (hs & fs & ->). apply runs_bind.
        { apply runs_state_context, runs_update_state. constructor. }
        intros _. apply runs_bind; [|intros _; apply runs_ret].
        apply runs_await; [by intros []|]. intros _. simpl. by rewrite Hd.
    + intros e handler He. destruct e; simplify_eq.
      apply runs_bind; [apply runs_tell; [by intros []|done]|]. intros _.
      apply runs_bind; [|intros _; apply runs_ret].
      apply runs_fail_after, runs_report_error; intros; simpl; by rewrite Hd.
Qed.

Lemma result_ready_shape tid hashes fs :
  exists body,
    result_ready env cfg tid hashes fs
    = (wait_for_status Executing >> state_context body) /\
    runs (footprint cfg (TaskResultReady tid hashes fs)) body.
Proof.
  eexists. split; [reflexivity|].
  apply runs_bind; [apply runs_state|]. intros st.
  apply runs_bind.
  - destruct (_ =? _)%nat; [|apply runs_ret].
    assert (forall res com non,
      runs (footprint cfg (TaskResultReady tid hashes fs))
        (let* returned :=
           try_except
             (_call_task_contract_method env "submitTaskResultCommitment"
                [("task_id", VInt (self_task_id cfg));
                 ("round", VInt (round st));
                 ("commitment", VBytes com);
                 ("nonce", VBytes non)] >>
              ret false)
             (fun e =>
                match e with
                | TxRevertedError reason =>
                    Some (if contains "Task is aborted" reason
                          then _report_error env cfg >> ret true
                          else ret false)
                | _ => None
                end) in
         if returned : bool then ret true
         else update_state (set_result res) >> ret false)) as Hbody.
    { intros res com non. apply runs_bind.
      - apply runs_try_except.
        + apply runs_bind; [|intros _; apply runs_ret].
          apply runs_call; intros; simpl; auto.
        + intros e handler He. destruct e; simplify_eq.
          destruct (contains _ _); [|apply runs_ret].
          apply runs_bind; [|intros _; apply runs_ret].
          apply runs_report_error; intros; simpl; auto.
      - intros [|]; [apply runs_ret|].
        apply runs_bind; [|intros _; apply runs_ret].
        apply runs_update_state. constructor. }
    split.
    + intros w.
      destruct (make_result_commitments env (trace w) hashes) as [[res com] non].
      apply (Hbody res com non).
    + intros I HF w Hw.
      destruct (make_result_commitments env (trace w) hashes) as [[res com] non].
      by apply (Hbody res com non).
  - intros [|]; [apply runs_ret|].
    apply runs_bind; [|intros _]; apply runs_update_state; constructor.
Qed.

Lemma result_ready_behind_barrier tid hashes fs :
  behind_barrier (footprint cfg (TaskResultReady tid hashes fs))
    (Some Executing) (result_ready env cfg tid hashes fs).
Proof.
  destruct (result_ready_shape tid hashes fs) as (body & -> & Hb).
  by apply barrier_behind_barrier, runs_state_context.
Qed.

Lemma commitment_ready_shape tid :
  exists body,
    commitment_ready env cfg tid
    = (wait_for_status ResultUploaded >> state_context body) /\
    runs (footprint cfg (TaskResultCommitmentsReady tid)) body.
Proof.
  eexists. split; [reflexivity|].
  apply runs_bind; [apply runs_state|]. intros st.
  destruct (negb (0 <? _)%nat); [apply runs_raise|].
  apply runs_bind; [|intros _; apply runs_update_state; constructor].
  destruct (negb (disclosed st)); [|apply runs_ret].
  apply runs_bind; [|intros _; apply runs_update_state; constructor].
  apply runs_call; intros; by simpl.
Qed.

Lemma commitment_ready_behind_barrier tid :
  behind_barrier (footprint cfg (TaskResultCommitmentsReady tid))
    (Some ResultUploaded) (commitment_ready env cfg tid).
Proof.
  destruct (commitment_ready_shape tid) as (body & -> & Hb).
  by apply barrier_behind_barrier, runs_state_context.
Qed.

Lemma task_success_shape tid node :
  exists body,
    task_success env cfg tid node
    = (wait_for_status Disclosed >> state_context body) /\
    runs (footprint cfg (TaskSuccess tid node)) body.
Proof.
  eexists. split; [reflexivity|].
  apply runs_bind; [|intros _; apply runs_update_state; constructor].
  destruct (String.eqb_spec node (account cfg)) as [Heq|_]; [|apply runs_ret].
  apply runs_bind; [apply runs_state|]. intros st.
  apply runs_bind; [by apply runs_await; [intros []|]|]. intros _.
  apply runs_call; intros; by simpl.
Qed.

Lemma task_success_behind_barrier tid node :
  behind_barrier (footprint cfg (TaskSuccess tid node)) (Some Disclosed)
    (task_success env cfg tid node).
Proof.
  destruct (task_success_shape tid node) as (body & -> & Hb).
  by apply barrier_behind_barrier, runs_state_context.
Qed.

Lemma task_aborted_runs tid :
  runs (footprint cfg (TaskAborted tid)) (task_aborted tid).
Proof. apply runs_state_context, runs_update_state. constructor. Qed.

(** Every handler of the inference runner, through [process_event]. *)
Lemma process_event_behind_barrier event :
  behind_barrier (footprint cfg event) (barrier_of event)
    (process_event (impl env cfg) event).
Proof.
  destruct event as [tid rd|tid hs fs|tid|tid node|tid]; simpl;
    (apply behind_barrier_bind; [|intros ?; apply runs_ret]).
  - apply task_created_behind_barrier.
  - apply result_ready_behind_barrier.
  - apply commitment_ready_behind_barrier.
  - apply task_success_behind_barrier.
  - apply runs_behind_barrier, task_aborted_runs.
Qed.

End HandlerFootprints.

(** ** Properties that every handler keeps *)

Section Frames.
Import TaskRunner InferenceTaskRunner.

Lemma Frame_mono (P Q : IO -> Prop) I :
  (forall e, P e -> Q e) -> Frame Q I -> Frame P I.
Proof.
  intros HPQ [He Hu Hd]. split; [|done..].
  intros e w Hnd HP. apply He; [done|]. intros Hx. by apply HPQ, HP.
Qed.

Lemma frame_deque P dq : Frame P (fun w => _deque w = dq).
Proof. by split. Qed.

Lemma frame_cleaned P b : Frame P (fun w => _cleaned w = b).
Proof. by split. Qed.

Lemma frame_has_state P : Frame P (fun w => is_Some (_state w)).
Proof. by split. Qed.

Lemma frame_calls_within P t0 : Frame P (calls_within P t0).
Proof.
  split; try done.
  - intros e w Hnd HP (delta & Ht & Hdelta). exists (delta ++ [e]). simpl.
    rewrite Ht, <- app_assoc. split; [done|].
    intros e' [Hin|Hin]%elem_of_app; [by apply Hdelta|].
    apply list_elem_of_singleton in Hin as ->. done.
  - intros st w _ (delta & Ht & Hdelta). exists (delta ++ [CacheDump st]).
    simpl. rewrite Ht, <- app_assoc. split; [done|].
    intros e' [Hin|Hin]%elem_of_app; [by apply Hdelta|].
    apply list_elem_of_singleton in Hin as ->. done.
Qed.

Lemma calls_within_refl P w : calls_within P (trace w) w.
Proof.
  exists []. rewrite app_nil_r. split; [done|]. intros e Hin.
  by apply elem_of_nil in Hin.
Qed.

Lemma handler_update_waiting f st :
  handler_update f -> no_tx_in_flight st -> no_tx_in_flight (f st).
Proof. intros Hf [Hm Hh]. by destruct Hf. Qed.

Lemma handler_update_identity f st :
  handler_update f -> task_id (f st) = task_id st /\ timeout (f st) = timeout st.
Proof. intros Hf. by destruct Hf. Qed.

Lemma frame_never_in_flight P t0 : Frame P (never_in_flight t0).
Proof.
  split.
  - intros e w Hnd _ [Hst (delta & Ht & Hdelta)]. split; [done|].
    exists (delta ++ [e]). simpl. rewrite Ht, <- app_assoc. split; [done|].
    intros st' [Hin|Hin]%elem_of_app; [by apply Hdelta|].
    apply list_elem_of_singleton in Hin as <-. by destruct Hnd.
  - intros f st w Hf Hst [(st0 & Hst0 & Hw) Hdelta]. split; [|done].
    exists (f st). split; [done|]. apply handler_update_waiting; [done|].
    by simplify_eq.
  - intros st w Hst [(st0 & Hst0 & Hw) (delta & Ht & Hdelta)].
    split; [by exists st0|].
    exists (delta ++ [CacheDump st]). simpl. rewrite Ht, <- app_assoc.
    split; [done|].
    intros st' [Hin|Hin]%elem_of_app; [by apply Hdelta|].
    apply list_elem_of_singleton in Hin. by simplify_eq.
Qed.

Lemma frame_owns_entry P tid tmo c0 : Frame P (owns_entry tid tmo c0).
Proof.
  split; try done.
  - intros f st w Hf Hst [(st0 & Hst0 & Hid & Htmo) Hc]. split; [|done].
    exists (f st). split; [done|].
    destruct (handler_update_identity f st Hf) as [-> ->]. by simplify_eq.
  - intros st w Hst [(st0 & Hst0 & Hid & Htmo) Hc]. split; [by exists st0|].
    intros k Hk. simpl. rewrite lookup_insert_ne; [by apply Hc|].
    simplify_eq. done.
Qed.

End Frames.

(** ** The same through the receive loop *)

Section LoopFrames.
Import TaskRunner InferenceTaskRunner.
Variable env : Env.
Variable cfg : Config.
Variable I : Runner -> Prop.
Hypothesis HP : forall event, preserves I (process_event (impl env cfg) event).
Hypothesis HA : forall ack_id w, I w -> I (emit (QueueAck ack_id) w).
Hypothesis HD : forall d w, I w -> I (with_deque d w).

Lemma run_event_frame ack_id event :
  preserves I (_run_event env (impl env cfg) ack_id event).
Proof.
  apply preserves_try_except.
  - apply preserves_bind; [apply HP|].
    intros finished. apply preserves_bind; [|by intros _ w].
    intros w Hw. unfold await. destruct (outcome _); simpl; by apply HA.
  - intros e handler He.
    destruct e; simplify_eq;
      (apply preserves_bind; [|by intros _ w]); intros w Hw; by apply HD.
Qed.

Lemma cancel_suspended_frame suspended : preserves I (cancel_suspended suspended).
Proof.
  induction suspended as [|[ack_id event] rest IH]; simpl; [by intros w|].
  apply preserves_bind; [|by intros _]. intros w Hw. by apply HD.
Qed.

Lemma after_handler_frame ack_id event others stay out :
  I (snd out) -> I (snd (after_handler ack_id event others stay out)).
Proof.
  destruct out as [[[|]|e|] w]; simpl; intros Hw; try done;
    by apply cancel_suspended_frame.
Qed.

Lemma loop_step_frame s suspended w :
  I w -> I (snd (loop_step env (impl env cfg) s suspended w)).
Proof.
  intros Hw. destruct s as [ack_id event| |k| |]; simpl.
  - by apply HD.
  - unfold recv. destruct (_deque w) as [|[ack_id event] rest]; [done|].
    apply after_handler_frame, run_event_frame. by apply HD.
  - destruct (suspended !! k) as [[ack_id event]|]; [|done].
    by apply after_handler_frame, run_event_frame.
  - by apply cancel_suspended_frame.
  - by apply cancel_suspended_frame.
Qed.

Lemma loop_run_frame sched suspended w :
  I w -> I (snd (loop_run env (impl env cfg) sched suspended w)).
Proof.
  revert suspended w.
  induction sched as [|s sched IH]; intros suspended w Hw; simpl; [done|].
  pose proof (loop_step_frame s suspended w Hw) as Hs.
  destruct (loop_step _ _ _ _ _) as [[suspended'| |e] w']; simpl in *;
    [by apply IH|done..].
Qed.

End LoopFrames.

Lemma process_event_frame env cfg I event :
  Frame (fun _ => True) I ->
  preserves I (TaskRunner.process_event (InferenceTaskRunner.impl env cfg) event).
Proof.
  intros HF.
  apply (behind_barrier_preserves (footprint cfg event) (barrier_of event)).
  - apply process_event_behind_barrier.
  - by apply (Frame_mono _ (fun _ => True)).
Qed.

(** An invariant of the handlers that no change of the deque disturbs is
    an invariant of the loop. *)
Lemma loop_run_framed env cfg I sched suspended w :
  Frame (fun _ => True) I ->
  (forall d w, I w -> I (with_deque d w)) ->
  I w ->
  I (snd (TaskRunner.loop_run env (InferenceTaskRunner.impl env cfg)
            sched suspended w)).
Proof.
  intros HF HD. apply loop_run_frame; [| |done].
  - intros event. by apply process_event_frame.
  - intros ack_id w0 Hw0. apply (frame_emit _ _ HF); [by intros []|done..].
Qed.

(** ** The state-context and the event buffer *)

Section ContextAndBuffer.
Import TaskRunner InferenceTaskRunner Scenario.



Lemma send_all_appends xs w :
  send_all xs w = (Done tt, with_deque (_deque w ++ xs) w).
Proof.
  revert w. induction xs as [|[ack_id event] xs IH]; intros w; simpl.
  - destruct w. unfold with_deque. simpl. by rewrite app_nil_r.
  - unfold send_all in *. cbn [for_each]. unfold bind at 1.
    unfold send at 1, deque_append at 1. rewrite IH.
    destruct w. unfold with_deque. simpl. by rewrite <- app_assoc.
Qed.

Lemma recv_n_pops dq rest w :
  _deque w = dq ++ rest ->
  recv_n (length dq) w = (Done dq, with_deque rest w).
Proof.
  revert w. induction dq as [|x dq IH]; intros w Hw; simpl.
  - unfold ret. destruct w. simpl in Hw. by subst.
  - unfold bind, recv. rewrite Hw. simpl.
    rewrite (IH (with_deque (dq ++ rest) w)) by done. done.
Qed.

(** X2.  The buffer between the dispatcher and the loop is first in,
    first out: after any number of [send]s, as many [recv]s as there are
    buffered pairs return the pairs that were there followed by the pairs
    sent, in the order they were sent; nothing is left, and one more
    [recv] waits. *)
Theorem recv_returns_sent_pairs_in_order xs w :
  let out := (send_all xs >> recv_n (length (_deque w ++ xs))) w in
  out = (Done (_deque w ++ xs), with_deque [] w) /\
  recv (snd out) = (Blocked, snd out).
Proof.
  intros out. assert (out = (Done (_deque w ++ xs), with_deque [] w)) as ->.
  { subst out. unfold bind. rewrite send_all_appends.
    rewrite (recv_n_pops (_deque w ++ xs) []); [done|].
    simpl. by rewrite app_nil_r. }
  done.
Qed.

End ContextAndBuffer.

(** ** More on the coordinator and the error report *)

Section CoordinatorEdges.
Import TaskRunner InferenceTaskRunner Scenario.

(** X3.  A method the coordinator does not know is never submitted.
    With no transaction recorded as in flight the call fails with
    [ValueError] and nothing at all has happened; in every other state
    the coordinator makes no contract call either. *)
Theorem unsupported_method_is_refused env method kwargs w :
  supported method = false ->
  let out := _call_task_contract_method env method kwargs w in
  (forall st, _state w = Some st -> no_tx_in_flight st ->
     out = (Raised (ValueError "Unsupported task contract method"), w)) /\
  (forall m kw,
     ChainCall m kw ∉ drop (length (trace w)) (trace (snd out))).
Proof.
  intros Hs out. subst out.
  assert (forall st, _state w = Some st -> no_tx_in_flight st ->
            _call_task_contract_method env method kwargs w
            = (Raised (ValueError "Unsupported task contract method"), w)) as Hfresh.
  { intros st Hst [Hm Hh]. rewrite (call_unfold env _ _ _ _ Hst).
    by rewrite Hm, Hh, Hs. }
  split; [done|]. intros m kw.
  destruct (_state w) as [st|] eqn:Hst.
  - destruct (decide (waiting_tx_method st = "" /\ waiting_tx_hash st = []))
      as [Hempty|Hset].
    { rewrite (Hfresh st eq_refl Hempty). simpl.
      rewrite drop_all. apply not_elem_of_nil. }
    destruct (decide (waiting_tx_method st = method /\ waiting_tx_hash st <> []))
      as [[Hm Hh]|Hother].
    + rewrite (call_resume env _ kwargs _ _ Hst Hm Hh).
      destruct (tx_wait _ _ _ _); simpl; rewrite drop_app_length;
        unfold dumped; rewrite ?elem_of_cons, elem_of_nil;
        intros Hin; destruct_or!; done.
    + rewrite (call_mismatch env _ kwargs _ _ Hst Hset Hother). simpl.
      rewrite drop_all. apply not_elem_of_nil.
  - unfold _call_task_contract_method, bind, state. rewrite Hst. simpl.
    rewrite drop_all. apply not_elem_of_nil.
Qed.

Lemma unsupported_method_witness :
  _call_task_contract_method env_ok "cancelTask" [] (runner_at st7_uploaded)
  = (Raised (ValueError "Unsupported task contract method"),
     runner_at st7_uploaded).
Proof.
  destruct (unsupported_method_is_refused env_ok "cancelTask" []
              (runner_at st7_uploaded) eq_refl) as [H1 _].
  apply (H1 st7_uploaded eq_refl). split; reflexivity.
Defined.

Ltac close_report :=
  first [ done
        | by (cbn; lia)
        | (intros e0; unfold dumped; rewrite ?elem_of_cons, elem_of_nil;
           intros He0 Hx; destruct_or!; by simplify_eq) ].

(** What [_report_error] leaves behind, whatever the waiting fields. *)
Lemma report_error_outcome env cfg w st :
  _state w = Some st ->
  exists r w' rest st',
    _report_error env cfg w = (r, w') /\
    trace w' = trace w ++ dumped (set_status Aborted st) ++ rest /\
    _state w' = Some st' /\ status st' = Aborted /\
    round st' = round st /\ task_id st' = task_id st /\
    cache w' !! task_id st = Some st' /\
    _deque w' = _deque w /\
    r <> Blocked /\ (forall reason, r <> Raised (TxRevertedError reason)) /\
    (forall e, e ∈ rest -> is_external e = true ->
       calls_method "reportTaskError" e) /\
    (submissions "reportTaskError" rest <= 1)%nat.
Proof.
  intros Hst. unfold _report_error.
  unfold bind at 1. rewrite (state_context_update _ _ _ Hst).
  unfold try_except, bind at 1, state at 1. cbn [_state].
  set (st' := set_status Aborted st).
  set (w1 := mkRunner _ _ _ _ _).
  assert (_state w1 = Some st') as Hst1 by done.
  destruct (decide (waiting_tx_method st' = "" /\ waiting_tx_hash st' = []))
    as [[Hm Hh]|Hset].
  - rewrite (call_submit env "reportTaskError" _ w1 st' Hst1 Hm Hh eq_refl).
    subst w1. cbn [trace].
    destruct (chain_call env _ _ _) as [e|h].
    { destruct e; cbn;
        (eexists _, _, _, st'; split; [reflexivity|]; cbn;
         rewrite <- ?app_assoc; cbn;
         split; [reflexivity|]; rewrite ?lookup_insert_eq;
         repeat split; close_report). }
    destruct (tx_wait env _ _ _) as [e|].
    { destruct e; cbn;
        (eexists _, _, _, st'; split; [reflexivity|]; cbn;
         rewrite <- ?app_assoc; cbn;
         split; [reflexivity|]; rewrite ?lookup_insert_eq;
         repeat split; close_report). }
    eexists _, _, _, st'; split; [reflexivity|]; cbn.
    rewrite <- ?app_assoc; cbn.
    split; [reflexivity|]. rewrite ?lookup_insert_eq.
    repeat split; close_report.
  - destruct (decide (waiting_tx_method st' = "reportTaskError"
                      /\ waiting_tx_hash st' <> [])) as [[Hm Hh]|Hother].
    + rewrite (call_resume env "reportTaskError" _ w1 st' Hst1 Hm Hh).
      subst w1. cbn [trace].
      destruct (tx_wait env _ _ _) as [e|].
      { destruct e; cbn;
          (eexists _, _, _, st'; split; [reflexivity|]; cbn;
           rewrite <- ?app_assoc; cbn;
           split; [reflexivity|]; rewrite ?lookup_insert_eq;
           repeat split; close_report). }
      eexists _, _, _, (cleared st'); split; [reflexivity|]; cbn.
      rewrite <- ?app_assoc; cbn.
      split; [reflexivity|]. rewrite ?lookup_insert_eq.
      repeat split; close_report.
    + rewrite (call_mismatch env "reportTaskError" _ w1 st' Hst1 Hset Hother).
      subst w1. cbn.
      eexists _, _, [], st'; split; [reflexivity|]; cbn.
      rewrite ?app_nil_r, ?lookup_insert_eq. repeat split; close_report.
Qed.

(** X4.  [_report_error]: whatever the state and whatever the chain
    answers, the status Aborted is dumped before anything is sent, the
    state at the end has status Aborted and is the one the cache holds,
    [reportTaskError] is submitted at most once, and a revert of the
    report never leaves the method: it is logged and the method returns. *)
Theorem report_error_always_aborts env cfg w st :
  _state w = Some st ->
  let out := _report_error env cfg w in
  (exists st', _state (snd out) = Some st' /\ status st' = Aborted /\
     cache (snd out) !! task_id st = Some st') /\
  (exists rest,
     trace (snd out) = trace w ++ dumped (set_status Aborted st) ++ rest /\
     (submissions "reportTaskError" rest <= 1)%nat) /\
  fst out <> Blocked /\
  (forall reason, fst out <> Raised (TxRevertedError reason)).
Proof.
  intros Hst out. subst out.
  destruct (report_error_outcome env cfg w st Hst)
    as (r & w' & rest & st' & -> & Ht & Hst' & Hs & _ & _ & Hc & _ & Hb & Hr & _ & Hn).
  simpl. split; [by exists st'|]. split; [by exists rest|]. done.
Qed.

Lemma report_error_witness :
  let out := _report_error (env_revert "out of gas") cfg7
               (runner_at (st7 Executing)) in
  (exists st', _state (snd out) = Some st' /\ status st' = Aborted /\
     cache (snd out) !! 7%Z = Some st') /\
  (forall reason, fst out <> Raised (TxRevertedError reason)).
Proof.
  intros out.
  destruct (report_error_always_aborts (env_revert "out of gas") cfg7
              (runner_at (st7 Executing)) (st7 Executing) eq_refl)
    as (H1 & _ & _ & H4).
  split; [exact H1|exact H4].
Defined.

End CoordinatorEdges.

(** ** The retried relay call *)

Section RelayRetry.
Import TaskRunner InferenceTaskRunner Scenario.

(** X5.  The retried [get_task] of the relay.  Every attempt but the
    last failed with an error that is retried ("Task not found" or
    "Task not ready"), was logged, and was followed by a wait of one
    second (the first thirty attempts) or ten seconds (later ones); the
    last call is the one whose task is returned or whose error is
    raised.  There are at most [attempts] retries; an error that is
    retried is raised only when they are used up, any other error at
    once.  The task state and the cache are not touched. *)
Theorem relay_retry_follows_wait_chain env attempts n tid w :
  let out := relay_get_task_retry env attempts n tid w in
  exists errs,
    trace (snd out) = trace w ++ retry_trace tid n errs /\
    (length errs <= attempts)%nat /\
    Forall (fun e => should_retry e = true) errs /\
    fst out <> Blocked /\
    (forall e, fst out = Raised e -> should_retry e = true ->
       length errs = attempts) /\
    _state (snd out) = _state w /\ cache (snd out) = cache w.
Proof.
  revert n w. induction attempts as [|a IH]; intros n w; simpl.
  - unfold await. exists [].
    destruct (relay_get_task env (trace w) tid) as [e|task]; simpl.
    + by destruct (should_retry e).
    + repeat split; try done.
  - unfold await.
    destruct (relay_get_task env (trace w) tid) as [e|task]; simpl.
    + destruct (should_retry e) eqn:He.
      * unfold bind, tell. cbv beta.
        destruct (IH (S n) (emit (Sleep (if (n <? 30)%nat then 1 else 10))
                              (emit (LogError e) (emit (RelayGetTask tid) w))))
          as (errs & Ht & Hk & Hall & Hb & Hr & Hst & Hca).
        exists (e :: errs).
        split; [rewrite Ht; simpl; by rewrite <- !app_assoc|].
        split; [simpl; lia|].
        split; [by constructor|].
        split; [done|]. split; [|done].
        intros e' He' Hre. simpl. by rewrite (Hr e' He' Hre).
      * exists []. repeat split; try done; try (simpl; lia).
        intros e' [= <-]. by rewrite He.
    + exists []. repeat split; try done; simpl; lia.
Qed.

End RelayRetry.

(** ** What a handler calls, when it waits, and what becomes of its event *)

Section HandlerProperties.
Import TaskRunner InferenceTaskRunner Scenario.
Variable env : Env.
Variable cfg : Config.

(** X6.  Each handler makes only the external calls of its stage,
    whatever the collaborators answer.  TaskCreated asks the relay for
    the task of the event, waits one or ten seconds between attempts,
    and then either hands the task to the worker queue (distributed) or
    runs it locally, enqueues TaskResultReady for its own task id and may
    report a task error (not distributed); TaskResultReady only submits
    the commitment or the error report; TaskResultCommitmentsReady only
    discloses; TaskSuccess uploads and reports only when the result node
    is this account; TaskAborted calls nothing.  No handler acks or
    no-acks the queue, cancels the task, unwatches events or deletes
    files. *)
Theorem handler_calls_stay_in_footprint event w :
  exists delta,
    trace (snd (process_event (impl env cfg) event w)) = trace w ++ delta /\
    forall e, e ∈ delta -> is_external e = true -> footprint cfg event e.
Proof.
  apply (behind_barrier_preserves (footprint cfg event) (barrier_of event)
           _ (calls_within (footprint cfg event) (trace w))).
  - apply process_event_behind_barrier.
  - apply frame_calls_within.
  - apply calls_within_refl.
Qed.

(** X7.  A handler stays suspended exactly when the status is not the
    one its event waits for (TaskAborted waits for none), and then it
    has changed nothing; behind its barrier it always returns or raises,
    whatever the collaborators answer. *)
Theorem handler_waits_exactly_off_stage event w :
  let out := process_event (impl env cfg) event w in
  if waits_at (barrier_of event) w then out = (Blocked, w)
  else fst out <> Blocked.
Proof.
  apply (behind_barrier_waits (footprint cfg event)).
  apply process_event_behind_barrier.
Qed.

Lemma process_event_deque event w :
  _deque (snd (process_event (impl env cfg) event w)) = _deque w.
Proof.
  apply (behind_barrier_preserves (footprint cfg event) (barrier_of event)
           _ (fun w' => _deque w' = _deque w)).
  - apply process_event_behind_barrier.
  - apply frame_deque.
  - done.
Qed.

Lemma process_event_finished (imp : Impl) event w finished w' :
  process_event imp event w = (Done finished, w') -> finished = finishes event.
Proof.
  destruct event; unfold process_event; simpl; unfold bind, ret;
    match goal with
    | |- context [match ?m w with _ => _ end] => destruct (m w) as [[?|?|] ?]
    end; by intros [= <- _].
Qed.

(** X8.  What becomes of an event taken by [_run_event].  If the
    handler returns and the ack goes through, the ack is the last thing
    done, the deque is as it was, and the flag returned is true exactly
    for TaskSuccess and TaskAborted.  If the handler or the ack raises,
    the pair (ack id, event) is appended at the back of the deque and
    the same exception is raised again.  If the handler stays suspended,
    nothing has changed: no ack, no entry in the deque. *)
Theorem run_event_acks_or_requeues ack_id event w :
  let out := _run_event env (impl env cfg) ack_id event w in
  match fst out with
  | Done finished =>
      finished = finishes event /\ _deque (snd out) = _deque w /\
      trace (snd out)
      = trace (snd (process_event (impl env cfg) event w)) ++ [QueueAck ack_id]
  | Raised e =>
      _deque (snd out) = _deque w ++ [(ack_id, event)] /\
      (fst (process_event (impl env cfg) event w) = Raised e \/
       exists t, queue_ack env t ack_id = Some e)
  | Blocked => snd out = w
  end.
Proof.
  intros out. subst out. unfold _run_event, try_except, bind, await, ret.
  cbv beta.
  pose proof (process_event_deque event w) as Hdq.
  pose proof (behind_barrier_waits _ _ _ w
                (process_event_behind_barrier env cfg event)) as Hwait.
  destruct (process_event (impl env cfg) event w) as [[finished|e|] w1] eqn:Hpe;
    simpl in Hdq.
  - destruct (queue_ack env (trace w1) ack_id) as [e|] eqn:Hack; simpl.
    + destruct e; simpl; rewrite Hdq; eauto.
    + split; [by apply (process_event_finished _ _ _ _ _ Hpe)|done].
  - destruct e; simpl; rewrite Hdq; eauto.
  - simpl in *. destruct (waits_at _ w); [by injection Hwait|done].
Qed.

End HandlerProperties.

(** ** The cache follows the memory *)

Section Sync.
Import TaskRunner InferenceTaskRunner.
Variable env : Env.
Variable cfg : Config.

Lemma in_sync_emit e w : ~ is_dump e -> in_sync w -> in_sync (emit e w).
Proof. intros _ (st & Hst & Hc). by exists st. Qed.

Lemma sync_await {A} call (answer : list IO -> exn + A) :
  ~ is_dump call -> preserves in_sync (await call answer).
Proof.
  intros Hd w Hw. unfold await.
  destruct (answer (trace w)); simpl; by apply in_sync_emit.
Qed.

Lemma sync_tell call : ~ is_dump call -> preserves in_sync (tell call).
Proof. intros Hd w Hw. simpl. by apply in_sync_emit. Qed.

Lemma sync_fail_after {A} delay shield (body : M A) :
  preserves in_sync body -> preserves in_sync (fail_after delay shield body).
Proof.
  intros Hb w Hw. unfold fail_after.
  assert (in_sync (emit (ScopeEnter delay shield) w)) as Hw'
    by (by apply in_sync_emit; [intros []|]).
  specialize (Hb _ Hw').
  destruct (body _) as [[a|e|] w']; simpl in *; [| |done];
    [|destruct e]; simpl; by apply in_sync_emit; [intros []|].
Qed.

(** Leaving a state-context puts the cache in line with the memory. *)
Lemma sync_state_context {A} P (body : M A) :
  runs P body -> preserves in_sync (state_context body).
Proof.
  intros [Tb Fb] w (st & Hst & Hc).
  assert (is_Some (_state (snd (body w)))) as Hs
    by (apply (Fb _ (frame_has_state P)); by rewrite Hst).
  unfold state_context, try_finally. specialize (Tb w).
  destruct (body w) as [[a|e|] w1]; simpl in *; [| |done];
    destruct Hs as [st1 Hst1];
    unfold fail_after, cache_dump, bind, state; cbn; rewrite Hst1; cbn;
    (exists st1; split; [done|]; simpl; by rewrite lookup_insert_eq).
Qed.

Lemma relay_retry_keeps_state attempts n tid w :
  _state (snd (relay_get_task_retry env attempts n tid w)) = _state w /\
  cache (snd (relay_get_task_retry env attempts n tid w)) = cache w.
Proof.
  revert n w. induction attempts as [|a IH]; intros n w; simpl; unfold await;
    destruct (relay_get_task env (trace w) tid) as [e|task]; simpl; try done;
    destruct (should_retry e); try done.
  unfold bind, tell. cbv beta.
  destruct (IH (S n) (emit (Sleep (if (n <? 30)%nat then 1 else 10))
                        (emit (LogError e) (emit (RelayGetTask tid) w))))
    as [-> ->]. done.
Qed.

Lemma sync_relay_get_task_retry attempts n tid :
  preserves in_sync (relay_get_task_retry env attempts n tid).
Proof.
  intros w (st & Hst & Hc).
  destruct (relay_retry_keeps_state attempts n tid w) as [Hs Hca].
  exists st. by rewrite Hs, Hca.
Qed.

Lemma sync_call method kwargs :
  preserves in_sync (_call_task_contract_method env method kwargs).
Proof.
  intros w (st & Hst & Hc).
  destruct (decide (waiting_tx_method st = "" /\ waiting_tx_hash st = []))
    as [[Hm Hh]|Hset].
  - destruct (supported method) eqn:Hs.
    + rewrite (call_submit env _ kwargs _ _ Hst Hm Hh Hs).
      destruct (chain_call _ _ _ _) as [e|h]; simpl; [by exists st|].
      destruct (tx_wait _ _ _ _); simpl; [by exists st|].
      exists st. split; [done|]. simpl. by rewrite lookup_insert_eq.
    + rewrite (call_unfold env _ _ _ _ Hst), Hm, Hh, Hs. by exists st.
  - destruct (decide (waiting_tx_method st = method /\ waiting_tx_hash st <> []))
      as [[Hm Hh]|Hother].
    + rewrite (call_resume env _ kwargs _ _ Hst Hm Hh).
      destruct (tx_wait _ _ _ _); simpl; [by exists st|].
      exists (cleared st). split; [done|]. simpl. by rewrite lookup_insert_eq.
    + rewrite (call_mismatch env _ kwargs _ _ Hst Hset Hother). by exists st.
Qed.

Lemma sync_report_error : preserves in_sync (_report_error env cfg).
Proof.
  intros w (st & Hst & Hc).
  destruct (report_error_outcome env cfg w st Hst)
    as (r & w' & rest & st' & -> & _ & Hst' & _ & _ & Hid & Hc' & _).
  exists st'. split; [done|]. by rewrite Hid.
Qed.

Lemma sync_task_created tid rd :
  preserves in_sync (task_created env cfg tid rd).
Proof.
  unfold task_created.
  apply preserves_bind; [apply preserves_wait_for_status|]. intros _.
  apply preserves_bind.
  { apply (sync_state_context (fun _ => True)), runs_update_state. constructor. }
  intros _. apply preserves_bind; [apply sync_relay_get_task_retry|].
  intros task. destruct (self_distributed cfg).
  - apply preserves_bind; [by apply sync_await; intros []|]. intros _.
    apply preserves_bind; [|intros _; apply preserves_ret].
    apply (sync_state_context (fun _ => True)), runs_update_state. constructor.
  - apply preserves_try_except.
    + apply preserves_bind.
      { apply preserves_bind; [by apply sync_await; intros []|].
        intros out. apply preserves_ret. }
      intros next_event. apply preserves_bind.
      { apply (sync_state_context (fun _ => True)), runs_update_state.
        constructor. }
      intros _. apply preserves_bind; [by apply sync_await; intros []|].
      intros _. apply preserves_ret.
    + intros e handler He. destruct e; simplify_eq.
      apply preserves_bind; [by apply sync_tell; intros []|]. intros _.
      apply preserves_bind; [|intros _; apply preserves_ret].
      apply sync_fail_after, sync_report_error.
Qed.

Lemma sync_process_event event :
  preserves in_sync (process_event (impl env cfg) event).
Proof.
  destruct event as [tid rd|tid hs fs|tid|tid node|tid]; unfold process_event;
    simpl; (apply preserves_bind; [|intros ?; apply preserves_ret]).
  - apply sync_task_created.
  - destruct (result_ready_shape env cfg tid hs fs) as (body & -> & Hb).
    apply preserves_bind; [apply preserves_wait_for_status|]. intros _.
    by apply (sync_state_context _ _ Hb).
  - destruct (commitment_ready_shape env cfg tid) as (body & -> & Hb).
    apply preserves_bind; [apply preserves_wait_for_status|]. intros _.
    by apply (sync_state_context _ _ Hb).
  - destruct (task_success_shape env cfg tid node) as (body & -> & Hb).
    apply preserves_bind; [apply preserves_wait_for_status|]. intros _.
    by apply (sync_state_context _ _ Hb).
  - apply (sync_state_context (fun _ => True)), runs_update_state.
    constructor.
Qed.

End Sync.

(** ** The receive loop as a whole *)

Section LoopProperties.
Import TaskRunner InferenceTaskRunner Scenario.
Variable env : Env.
Variable cfg : Config.

(** X9.  A runner whose state records no transaction as in flight never
    records one: through any schedule of the loop, the state keeps both
    waiting fields empty and so does every snapshot dumped.  The branch
    of the coordinator that resumes a stored transaction is therefore
    only ever entered with a state that was loaded at start. *)
Theorem loop_never_records_tx_in_flight sched suspended w st :
  _state w = Some st -> no_tx_in_flight st ->
  let w' := snd (loop_run env (impl env cfg) sched suspended w) in
  (exists st', _state w' = Some st' /\ no_tx_in_flight st') /\
  exists delta, trace w' = trace w ++ delta /\
    forall st', CacheDump st' ∈ delta -> no_tx_in_flight st'.
Proof.
  intros Hst Hw w'.
  apply (loop_run_framed env cfg (never_in_flight (trace w))).
  - apply frame_never_in_flight.
  - by intros d w0 Hw0.
  - split; [by exists st|]. exists []. rewrite app_nil_r. split; [done|].
    intros st' Hin. by apply elem_of_nil in Hin.
Qed.

(** X10.  The loop writes no cache entry but the runner's own, and
    changes neither the task id nor the deadline of the state: through
    any schedule, every other key of the cache holds what it held. *)
Theorem loop_writes_only_its_own_entry sched suspended w st :
  _state w = Some st ->
  let w' := snd (loop_run env (impl env cfg) sched suspended w) in
  (exists st', _state w' = Some st' /\
     task_id st' = task_id st /\ timeout st' = timeout st) /\
  forall k, k <> task_id st -> cache w' !! k = cache w !! k.
Proof.
  intros Hst w'.
  apply (loop_run_framed env cfg (owns_entry (task_id st) (timeout st) (cache w))).
  - apply frame_owns_entry.
  - by intros d w0 Hw0.
  - split; [by exists st|done].
Qed.


Lemma cancel_suspended_appends suspended w :
  cancel_suspended suspended w = (Done tt, with_deque (_deque w ++ suspended) w).
Proof. exact (send_all_appends suspended w). Qed.

Lemma acked_app t1 t2 : acked (t1 ++ t2) = acked t1 ++ acked t2.
Proof. unfold acked. by rewrite omap_app. Qed.

Lemma ack_ids_app dq1 dq2 : ack_ids (dq1 ++ dq2) = ack_ids dq1 ++ ack_ids dq2.
Proof. unfold ack_ids. by rewrite map_app. Qed.

Lemma bind_done {A B} (m : M A) (k : A -> M B) w b w' :
  bind m k w = (Done b, w') ->
  exists a w1, m w = (Done a, w1) /\ k a w1 = (Done b, w').
Proof.
  unfold bind. destruct (m w) as [[a|e|] w1]; [|done..]. intros Hk. eauto.
Qed.

Lemma state_context_done {A} (body : M A) w a w' :
  state_context body w = (Done a, w') ->
  exists w1 st1, body w = (Done a, w1) /\ _state w1 = Some st1 /\
                 _state w' = Some st1.
Proof.
  unfold state_context, try_finally.
  destruct (body w) as [[a0|e|] w1]; [| |done].
  - unfold fail_after, cache_dump, bind, state. cbn.
    destruct (_state w1) as [st1|] eqn:Hst1; cbn; [|done].
    intros [= <- <-]. eauto.
  - unfold fail_after, cache_dump, bind, state. cbn.
    destruct (_state w1) as [st1|] eqn:Hst1; cbn; done.
Qed.

Lemma update_state_done f w w' :
  update_state f w = (Done tt, w') ->
  exists st, _state w' = Some (f st).
Proof.
  unfold update_state, bind, state. destruct (_state w) as [st|]; [|done].
  intros [= <-]. by exists st.
Qed.

(** A handler that ends the loop has set a terminal status. *)
Lemma process_event_finishes_terminal event w w' :
  process_event (impl env cfg) event w = (Done true, w') ->
  at_terminal_status w' = true.
Proof.
  intros Hpe. pose proof (process_event_finished _ _ _ _ _ Hpe) as Hf.
  destruct event as [tid rd|tid hs fs|tid|tid node|tid]; try done;
    unfold process_event in Hpe; simpl in Hpe;
    apply bind_done in Hpe as ([] & w1 & Hh & [= <-]).
  - unfold task_success in Hh.
    apply bind_done in Hh as ([] & w0 & _ & Hctx).
    apply state_context_done in Hctx as (w2 & st2 & Hbody & Hst2 & Hst1).
    apply bind_done in Hbody as ([] & w3 & _ & Hupd).
    apply update_state_done in Hupd as (st3 & Hst3).
    unfold at_terminal_status. rewrite Hst1. by simplify_eq.
  - unfold task_aborted in Hh.
    apply state_context_done in Hh as (w2 & st2 & Hupd & Hst2 & Hst1).
    apply update_state_done in Hupd as (st3 & Hst3).
    unfold at_terminal_status. rewrite Hst1. by simplify_eq.
Qed.

Lemma process_event_extends event w :
  exists d, trace (snd (process_event (impl env cfg) event w)) = trace w ++ d.
Proof.
  destruct (behind_barrier_preserves (footprint cfg event) (barrier_of event)
              _ (calls_within (footprint cfg event) (trace w))
              (process_event_behind_barrier env cfg event)
              (frame_calls_within _ _) w (calls_within_refl _ w))
    as (d & Hd & _).
  by exists d.
Qed.

(** The outcomes of [_run_event], as the loop needs them. *)
Lemma run_event_cases ack_id event w :
  let out := _run_event env (impl env cfg) ack_id event w in
  exists d, trace (snd out) = trace w ++ d /\
    match fst out with
    | Done finished =>
        _deque (snd out) = _deque w /\ ack_id ∈ acked d /\
        (finished = true -> at_terminal_status (snd out) = true)
    | Raised _ => _deque (snd out) = _deque w ++ [(ack_id, event)]
    | Blocked => snd out = w
    end.
Proof.
  intros out. subst out. unfold _run_event, try_except, bind, await, ret.
  cbv beta.
  pose proof (process_event_deque env cfg event w) as Hdq.
  pose proof (behind_barrier_waits _ _ _ w
                (process_event_behind_barrier env cfg event)) as Hwait.
  destruct (process_event_extends event w) as (d & Hd).
  destruct (process_event (impl env cfg) event w) as [[finished|e|] w1] eqn:Hpe;
    simpl in Hdq, Hd.
  - destruct (queue_ack env (trace w1) ack_id) as [e|] eqn:Hack; simpl.
    + exists (d ++ [QueueAck ack_id]).
      destruct e; simpl; rewrite Hdq, Hd, <- app_assoc; done.
    + exists (d ++ [QueueAck ack_id]). rewrite Hd, <- app_assoc.
      split; [done|]. split; [done|]. split.
      * rewrite acked_app. apply elem_of_app. right. simpl.
        apply list_elem_of_singleton. done.
      * intros ->. by apply (process_event_finishes_terminal _ _ _ Hpe).
  - exists d. destruct e; simpl; rewrite Hdq; done.
  - exists []. rewrite app_nil_r. simpl in *.
    destruct (waits_at _ w); [by injection Hwait as ->|done].
Qed.

Lemma after_handler_accounts ack_id event others stay w id :
  (forall id', id' = ack_id \/ id' ∈ ack_ids others -> id' ∈ ack_ids stay) ->
  let out := after_handler ack_id event others stay
               (_run_event env (impl env cfg) ack_id event w) in
  exists d, trace (snd out) = trace w ++ d /\
    (id = ack_id \/ id ∈ ack_ids (_deque w) \/ id ∈ ack_ids others ->
     accounted_for id d out).
Proof.
  intros Hstay out. subst out.
  destruct (run_event_cases ack_id event w) as (d & Ht & Hcase).
  destruct (_run_event env (impl env cfg) ack_id event w) as [[[|]|e|] w1];
    simpl in *.
  - destruct Hcase as (Hdq & Hack & _). rewrite cancel_suspended_appends.
    exists d. split; [done|]. unfold accounted_for. simpl.
    rewrite ack_ids_app, elem_of_app, Hdq.
    intros [->|[Hin|Hin]]; auto.
  - destruct Hcase as (Hdq & Hack & _).
    exists d. split; [done|]. unfold accounted_for. simpl. rewrite Hdq.
    intros [->|[Hin|Hin]]; auto.
  - rewrite cancel_suspended_appends.
    exists d. split; [done|]. unfold accounted_for. simpl.
    rewrite Hcase, !ack_ids_app, !elem_of_app. simpl.
    rewrite list_elem_of_singleton.
    intros [->|[Hin|Hin]]; auto.
  - subst w1. exists []. rewrite app_nil_r. split; [done|].
    unfold accounted_for. simpl.
    intros [->|[Hin|Hin]]; auto.
Qed.

Lemma loop_step_accounts s suspended w id :
  let out := loop_step env (impl env cfg) s suspended w in
  exists d, trace (snd out) = trace w ++ d /\
    (id ∈ match s with SSend ack_id _ => [ack_id] | _ => [] end \/
     id ∈ ack_ids (_deque w) \/ id ∈ ack_ids suspended ->
     accounted_for id d out).
Proof.
  intros out. subst out. destruct s as [ack_id event| |k| |]; simpl.
  - exists []. rewrite app_nil_r. split; [done|].
    unfold accounted_for, send, deque_append. simpl.
    rewrite ack_ids_app, elem_of_app. simpl.
    rewrite !list_elem_of_singleton. intros [->|[Hin|Hin]]; auto.
  - unfold recv. destruct (_deque w) as [|[ack_id event] rest] eqn:Hdq.
    + exists []. rewrite app_nil_r. split; [done|].
      unfold accounted_for. simpl. rewrite Hdq.
      intros [Hin|[Hin|Hin]]; auto; by apply elem_of_nil in Hin.
    + destruct (after_handler_accounts ack_id event suspended
                  (suspended ++ [(ack_id, event)]) (with_deque rest w) id)
        as (d & Ht & Hacc).
      { intros id'. rewrite ack_ids_app, elem_of_app. simpl.
        rewrite list_elem_of_singleton. intros [->|Hin]; auto. }
      exists d. split; [done|]. simpl in Hacc. simpl.
      rewrite elem_of_cons.
      intros [Hin|[[->|Hin]|Hin]]; [by apply elem_of_nil in Hin|auto..].
  - destruct (suspended !! k) as [[ack_id event]|] eqn:Hk.
    + destruct (after_handler_accounts ack_id event (delete k suspended)
                  suspended w id) as (d & Ht & Hacc).
      { intros id'. rewrite <- (take_drop_middle _ _ _ Hk) at 2.
        rewrite delete_take_drop, !ack_ids_app, !elem_of_app. simpl.
        rewrite elem_of_cons. intros [->|[Hin|Hin]]; auto. }
      exists d. split; [done|].
      intros [Hin|[Hin|Hin]]; [by apply elem_of_nil in Hin|auto|].
      apply Hacc. revert Hin. rewrite <- (take_drop_middle _ _ _ Hk) at 1.
      rewrite delete_take_drop, !ack_ids_app, !elem_of_app. simpl.
      rewrite elem_of_cons. intros [Hin|[->|Hin]]; auto.
    + exists []. rewrite app_nil_r. split; [done|].
      unfold accounted_for. simpl.
      intros [Hin|[Hin|Hin]]; auto; by apply elem_of_nil in Hin.
  - rewrite cancel_suspended_appends.
    exists []. rewrite app_nil_r. split; [done|].
    unfold accounted_for. simpl. rewrite ack_ids_app, elem_of_app.
    intros [Hin|[Hin|Hin]]; auto; by apply elem_of_nil in Hin.
  - rewrite cancel_suspended_appends.
    exists []. rewrite app_nil_r. split; [done|].
    unfold accounted_for. simpl. rewrite ack_ids_app, elem_of_app.
    intros [Hin|[Hin|Hin]]; auto; by apply elem_of_nil in Hin.
Qed.

Lemma loop_run_accounts sched suspended w t0 d0 id :
  trace w = t0 ++ d0 ->
  id ∈ acked d0 \/
  id ∈ sends_reached env (impl env cfg) sched suspended w
       ++ ack_ids (_deque w) ++ ack_ids suspended ->
  let out := loop_run env (impl env cfg) sched suspended w in
  exists d, trace (snd out) = t0 ++ d /\ accounted_for id d out.
Proof.
  revert suspended w d0.
  induction sched as [|s sched IH]; intros suspended w d0 Ht Hin; simpl.
  - exists d0. split; [done|]. unfold accounted_for. simpl.
    simpl in Hin. rewrite elem_of_app in Hin. tauto.
  - destruct (loop_step_accounts s suspended w id) as (d1 & Ht1 & Hacc).
    simpl in Hin. rewrite <- !app_assoc, !elem_of_app in Hin.
    destruct (loop_step env (impl env cfg) s suspended w)
      as [[suspended'| |e] w1] eqn:Hstep; simpl in *.
    + apply (IH suspended' w1 (d0 ++ d1)).
      { by rewrite Ht1, Ht, <- app_assoc. }
      rewrite acked_app, !elem_of_app.
      destruct Hin as [Hin|[Hin|[Hin|[Hin|Hin]]]]; auto;
        destruct Hacc as [Ha|[Ha|Ha]]; auto.
    + exists (d0 ++ d1). split; [by rewrite Ht1, Ht, <- app_assoc|].
      unfold accounted_for in *. simpl in *. rewrite acked_app, elem_of_app.
      destruct Hin as [Hin|[Hin|[Hin|[Hin|Hin]]]]; auto;
        try (by apply elem_of_nil in Hin);
        destruct Hacc as [Ha|[Ha|Ha]]; auto.
    + exists (d0 ++ d1). split; [by rewrite Ht1, Ht, <- app_assoc|].
      unfold accounted_for in *. simpl in *. rewrite acked_app, elem_of_app.
      destruct Hin as [Hin|[Hin|[Hin|[Hin|Hin]]]]; auto;
        try (by apply elem_of_nil in Hin);
        destruct Hacc as [Ha|[Ha|Ha]]; auto.
Qed.

(** X12.  The loop loses no event.  Take any event the runner holds when
    the loop starts (buffered in the deque or with a suspended handler)
    or is sent while the loop runs.  Whenever the schedule ends or the
    loop stops, by a finishing event, an exception, the deadline or a
    cancellation, that event has been acked, or it is in the deque, where
    the drain of [run] will ack or no-ack it, or the loop goes on and a
    suspended handler still holds it. *)
Theorem loop_loses_no_event sched suspended w ack_id :
  ack_id ∈ sends_reached env (impl env cfg) sched suspended w
           ++ ack_ids (_deque w) ++ ack_ids suspended ->
  let out := loop_run env (impl env cfg) sched suspended w in
  exists d, trace (snd out) = trace w ++ d /\ accounted_for ack_id d out.
Proof.
  intros Hin. apply (loop_run_accounts sched suspended w (trace w) []).
  - by rewrite app_nil_r.
  - by right.
Qed.

Lemma loop_step_exit s suspended w w' :
  loop_step env (impl env cfg) s suspended w = (Exited, w') ->
  at_terminal_status w' = true.
Proof.
  assert (forall ack_id event others stay w0,
            after_handler ack_id event others stay
              (_run_event env (impl env cfg) ack_id event w0) = (Exited, w') ->
            at_terminal_status w' = true) as Hafter.
  { intros ack_id event others stay w0.
    destruct (run_event_cases ack_id event w0) as (d & _ & Hcase).
    destruct (_run_event env (impl env cfg) ack_id event w0) as [[[|]|e|] w1];
      simpl in *; try done.
    rewrite cancel_suspended_appends. intros [= <-].
    destruct Hcase as (_ & _ & Hterm). by apply Hterm. }
  destruct s as [ack_id event| |k| |]; simpl; try done.
  - unfold recv. destruct (_deque w) as [|[ack_id event] rest]; [done|].
    apply Hafter.
  - destruct (suspended !! k) as [[ack_id event]|]; [|done]. apply Hafter.
Qed.


End LoopProperties.

(** ** Edges of the handlers *)

(** The runner reached by symbolic execution, with its trace flattened. *)
Ltac settle :=
  cbv beta iota delta [emit with_cache with_state with_deque with_cleaned
                       dumped _state _deque _cleaned cache trace];
  cbn; rewrite <- ?app_assoc; cbn.

Section HandlerEdges.
Import TaskRunner InferenceTaskRunner Scenario.
Variable env : Env.
Variable cfg : Config.

Lemma relay_get_task_first_try attempts n tid w task :
  relay_get_task env (trace w) tid = inr task ->
  relay_get_task_retry env attempts n tid w
  = (Done task, emit (RelayGetTask tid) w).
Proof.
  intros Hr. destruct attempts; simpl; unfold await; by rewrite Hr.
Qed.

(** X14.  A commitment whose receipt reports a revert for any reason
    other than "Task is aborted" is taken as made: the revert is
    swallowed, the result is recorded, the status becomes ResultUploaded
    with the files of the event, and the handler returns normally. *)
Theorem other_revert_of_commitment_is_swallowed
    tid hashes fs w st res com non h reason :
  _state w = Some st ->
  status st = Executing ->
  result st = [] ->
  no_tx_in_flight st ->
  make_result_commitments env (trace w) hashes = (res, com, non) ->
  chain_call env (trace w) "submitTaskResultCommitment"
    (commitment_kwargs cfg st com non) = inr h ->
  tx_wait env
    (trace w ++ [ChainCall "submitTaskResultCommitment"
                   (commitment_kwargs cfg st com non)])
    "submitTaskResultCommitment" h = Some (TxRevertedError reason) ->
  contains "Task is aborted" reason = false ->
  let st1 := set_files fs (set_status ResultUploaded (set_result res st)) in
  result_ready env cfg tid hashes fs w
  = (Done tt,
     mkRunner (Some st1) (_deque w) (_cleaned w)
       (<[task_id st := st1]> (cache w))
       (trace w
        ++ ChainCall "submitTaskResultCommitment"
             (commitment_kwargs cfg st com non)
        :: TxWait "submitTaskResultCommitment" h
        :: dumped st1)).
Proof.
  intros Hst Hs Hr [Hm Hh] Hmk Hc Hw Hab st1. subst st1.
  destruct w as [s dq c ch t]; simpl in Hst; subst s.
  destruct st as [tid' rd tmo sts res0 dis fs0 wm wh]; simpl in *; subst.
  unfold result_ready. unfold_runner. exec.
  rewrite Hmk.
  erewrite (call_submit env); [|reflexivity|done..].
  unfold commitment_kwargs in Hc, Hw; cbn in Hc, Hw.
  exec. rewrite Hc, Hw. exec. rewrite Hab. exec.
  by settle.
Qed.

(** X15.  TaskResultCommitmentsReady for a task whose result was never
    recorded: the handler fails its assertion before anything is
    submitted; the state is dumped as it was and the status stays
    ResultUploaded. *)
Theorem commitment_ready_needs_result tid w st :
  _state w = Some st ->
  status st = ResultUploaded ->
  result st = [] ->
  commitment_ready env cfg tid w
  = (Raised (AssertionError
       "Task result not found when receive event TaskResultCommitmentsReady."),
     mkRunner (Some st) (_deque w) (_cleaned w)
       (<[task_id st := st]> (cache w)) (trace w ++ dumped st)).
Proof.
  intros Hst Hs Hr.
  destruct w as [s dq c ch t]; simpl in Hst; subst s.
  destruct st as [tid' rd tmo sts res0 dis fs0 wm wh]; simpl in *; subst.
  unfold commitment_ready. unfold_runner. exec.
  by settle.
Qed.

(** X16.  TaskSuccess on the result node: the files are uploaded to the
    relay before [reportResultsUploaded] is submitted.  If the upload
    fails nothing is submitted, and in every case but the one where
    upload, submission and receipt all succeed the handler raises and
    the status stays Disclosed, in memory and in the cache; only then is
    Success recorded.  On any other node the handler calls nothing and
    records Success. *)
Theorem upload_precedes_report tid node w st :
  _state w = Some st ->
  status st = Disclosed ->
  no_tx_in_flight st ->
  let out := task_success env cfg tid node w in
  let upload := RelayUpload (self_task_id cfg) (files st) in
  let report := ChainCall "reportResultsUploaded" (report_kwargs cfg st) in
  if String.eqb node (account cfg) then
    match relay_upload_task_result env (trace w) (self_task_id cfg) (files st) with
    | Some e =>
        fst out = Raised e /\
        trace (snd out) = trace w ++ upload :: dumped st
    | None =>
        exists rest, trace (snd out) = trace w ++ upload :: report :: rest
    end /\
    exists st',
      _state (snd out) = Some st' /\ cache (snd out) !! task_id st = Some st' /\
      match fst out with
      | Done _ => st' = set_status Success st
      | _ => st' = st
      end
  else
    out = (Done tt,
           mkRunner (Some (set_status Success st)) (_deque w) (_cleaned w)
             (<[task_id st := set_status Success st]> (cache w))
             (trace w ++ dumped (set_status Success st))).
Proof.
  intros Hst Hs [Hm Hh] out upload report. subst out upload report.
  destruct w as [s dq c ch t]; simpl in Hst; subst s.
  destruct st as [tid' rd tmo sts res0 dis fs0 wm wh]; simpl in *; subst.
  unfold task_success. unfold_runner. exec.
  destruct (String.eqb node (account cfg)); exec.
  - destruct (relay_upload_task_result env t _ _) as [e|]; exec.
    { destruct e; exec; settle;
        (split; [done|]); eexists; (split; [reflexivity|]);
        by rewrite lookup_insert_eq. }
    erewrite (call_submit env); [|reflexivity|done..].
    exec. unfold report_kwargs. cbn.
    destruct (chain_call env _ _ _) as [e|h]; exec.
    { destruct e; exec; settle;
        (split; [by eexists|]); eexists; (split; [reflexivity|]);
        by rewrite lookup_insert_eq. }
    destruct (tx_wait env _ _ _) as [e|]; exec.
    { destruct e; exec; settle;
        (split; [by eexists|]); eexists; (split; [reflexivity|]);
        by rewrite lookup_insert_eq. }
    settle.
    split; [by eexists|]. eexists. split; [reflexivity|].
    by rewrite lookup_insert_eq.
  - by settle.
Qed.

(** X17.  [cleanup] runs once.  After a cleanup that returned, the
    cleaned flag is set and a second call does nothing at all; a first
    cleanup has then deleted the state.  When the cleanup raises (no
    state, or the deletion of the result files failed or timed out), the
    flag is still unset and the state is still there, so a later call
    starts over.  It never stays suspended. *)
Theorem cleanup_runs_once w :
  let out := cleanup env cfg w in
  match fst out with
  | Done _ =>
      _cleaned (snd out) = true /\
      cleanup env cfg (snd out) = (Done tt, snd out) /\
      (_cleaned w = false -> _state (snd out) = None)
  | Raised _ =>
      _cleaned w = false /\ _cleaned (snd out) = false /\
      _state (snd out) = _state w
  | Blocked => False
  end.
Proof.
  intros out. subst out.
  destruct (cleanup env cfg w) as [r w1] eqn:Hc. simpl.
  revert Hc. destruct w as [s dq c ch t]. unfold cleanup.
  cbn [_cleaned negb]. destruct c; cbn [negb].
  { by intros [= <- <-]. }
  unfold state_deleter. unfold_runner. cbn.
  destruct s as [st|]; cbn; [|by intros [= <- <-]].
  destruct (delete_result_files env _ (files st)) as [e|]; cbn.
  - destruct e; by intros [= <- <-].
  - by intros [= <- <-].
Qed.

End HandlerEdges.

(** ** TaskCreated and the worker *)

Section TaskCreatedLocal.
Import TaskRunner InferenceTaskRunner Scenario.
Variable env : Env.
Variable cfg : Config.


(** X19.  The status Executing is persisted before the result is
    enqueued.  With the relay serving the task, the local worker
    returning hashes and files, and the queue taking the event, the
    handler dumps the round, calls the relay and the worker once each,
    dumps the status Executing, and only then puts TaskResultReady for
    its own task id, with those hashes and files, into the queue. *)
Theorem executing_is_persisted_before_result_is_enqueued
    tid rd w st task hs fs :
  _state w = Some st ->
  status st = Pending ->
  self_distributed cfg = false ->
  (forall t, relay_get_task env t tid = inr task) ->
  (forall t, local_task env t (self_task_name cfg) (relay_task_id task)
             = inr (hs, fs)) ->
  (forall t event, queue_put env t event = None) ->
  let st0 := set_round rd st in
  let st1 := set_status Executing st0 in
  task_created env cfg tid rd w
  = (Done None,
     mkRunner (Some st1) (_deque w) (_cleaned w)
       (<[task_id st := st1]> (<[task_id st := st0]> (cache w)))
       (trace w ++ dumped st0
        ++ [RelayGetTask tid;
            LocalTask (self_task_name cfg) (relay_task_id task)]
        ++ dumped st1
        ++ [QueuePut (TaskResultReady (self_task_id cfg) hs fs)])).
Proof.
  intros Hst Hs Hd Hrelay Hlocal Hput st0 st1. subst st0 st1.
  destruct w as [s dq c ch t]; simpl in Hst; subst s.
  destruct st as [tid' rd0 tmo sts res0 dis fs0 wm wh]; simpl in *; subst.
  unfold task_created, run_local_task. rewrite Hd. unfold_runner. exec.
  rewrite (relay_get_task_first_try env _ _ _ _ task) by apply Hrelay. exec.
  rewrite Hlocal. exec. rewrite Hput. exec. by settle.
Qed.

(** X20.  A failure of the worker leaves the task Pending.  When the
    worker call raises (in local mode anything but [TaskInvalid]), the
    handler raises the same exception; the round of the event has been
    dumped, the status is still Pending, nothing was enqueued and
    nothing was sent to the chain, so the event, put back by
    [_run_event], can be handled again. *)
Theorem worker_failure_leaves_task_pending tid rd w st task e :
  _state w = Some st ->
  status st = Pending ->
  (forall t, relay_get_task env t tid = inr task) ->
  (if self_distributed cfg
   then forall t, celery_send_task env t (self_task_name cfg)
                    (relay_task_id task) = Some e
   else forall t, local_task env t (self_task_name cfg)
                    (relay_task_id task) = inl e) ->
  (self_distributed cfg = false -> e <> TaskInvalid) ->
  let st0 := set_round rd st in
  task_created env cfg tid rd w
  = (Raised e,
     mkRunner (Some st0) (_deque w) (_cleaned w)
       (<[task_id st := st0]> (cache w))
       (trace w ++ dumped st0
        ++ [RelayGetTask tid;
            (if self_distributed cfg then CelerySendTask else LocalTask)
              (self_task_name cfg) (relay_task_id task)])).
Proof.
  intros Hst Hs Hrelay Hworker Hne st0. subst st0.
  destruct w as [s dq c ch t]; simpl in Hst; subst s.
  destruct st as [tid' rd0 tmo sts res0 dis fs0 wm wh]; simpl in *; subst.
  unfold task_created, run_local_task, run_distributed_task.
  destruct (self_distributed cfg); unfold_runner; exec;
    rewrite (relay_get_task_first_try env _ _ _ _ task) by apply Hrelay; exec;
    rewrite Hworker; exec.
  - by settle.
  - specialize (Hne eq_refl). destruct e; try done; by settle.
Qed.

End TaskCreatedLocal.

(** ** run: a cancellation from outside *)

Section OutsideCancellation.
Import TaskRunner InferenceTaskRunner Scenario.
Variable env : Env.
Variable cfg : Config.


End OutsideCancellation.

(** ** The mock runner *)

Section Mock.
Import TaskRunner Scenario.
Variable env : Env.
Variable cfg : Config.
Variable _timeout : Z.

(** X22.  The mock runner walks the whole protocol without a single
    external call.  Handling TaskCreated, TaskResultReady,
    TaskResultCommitmentsReady and TaskSuccess in this order from status
    Pending ends at status Success, with the round of the first event,
    the files of the second, the joined bytes of its hashes as the
    result and [disclosed] set; the final state is the one in the cache,
    and the only entries of the trace are the dumps. *)
Theorem mock_events_in_order_reach_success tid rd hs fs node w st result :
  _state w = Some st ->
  status st = Pending ->
  join_hashes hs = Some result ->
  let imp := MockTaskRunner.impl env cfg _timeout in
  let w' :=
    fold_left (fun w event => snd (process_event imp event w))
      [TaskCreated tid rd; TaskResultReady tid hs fs;
       TaskResultCommitmentsReady tid; TaskSuccess tid node] w in
  let final :=
    set_status Success
      (set_disclosed true
         (set_status Disclosed
            (set_status ResultUploaded
               (set_result result
                  (set_files fs
                     (set_status Executing (set_round rd st))))))) in
  _state w' = Some final /\
  cache w' !! task_id st = Some final /\
  external_calls (drop (length (trace w)) (trace w')) = [].
Proof.
  intros Hst Hs Hj imp w' final. subst imp w' final.
  destruct w as [s dq c ch t]; simpl in Hst; subst s.
  destruct st as [tid' rd0 tmo sts res0 dis fs0 wm wh]; simpl in *; subst.
  unfold process_event. cbn [kind String.eqb Ascii.eqb Bool.eqb
    MockTaskRunner.impl task_created result_ready commitment_ready
    task_success].
  unfold MockTaskRunner.task_created, MockTaskRunner.result_ready,
    MockTaskRunner.commitment_ready, MockTaskRunner.task_success.
  rewrite Hj. unfold_runner. do 4 exec. settle.
  split; [done|]. split; [by rewrite lookup_insert_eq|].
  by rewrite drop_app_length.
Qed.

(** X23.  The mock runner and a hash that is not hexadecimal: the
    handler of TaskResultReady raises [ValueError]; by then the files of
    the event are already in the state, which is dumped with the status
    still Executing and the result as it was. *)
Theorem mock_result_ready_rejects_bad_hash tid hs fs w st :
  _state w = Some st ->
  status st = Executing ->
  join_hashes hs = None ->
  MockTaskRunner.result_ready tid hs fs w
  = (Raised (ValueError "non-hexadecimal number found in fromhex() arg"),
     mkRunner (Some (set_files fs st)) (_deque w) (_cleaned w)
       (<[task_id st := set_files fs st]> (cache w))
       (trace w ++ dumped (set_files fs st))).
Proof.
  intros Hst Hs Hj.
  destruct w as [s dq c ch t]; simpl in Hst; subst s.
  destruct st as [tid' rd0 tmo sts res0 dis fs0 wm wh]; simpl in *; subst.
  unfold MockTaskRunner.result_ready. rewrite Hj. unfold_runner. exec.
  by settle.
Qed.

(** X24.  [init] of a mock runner that finds nothing in the cache: the
    task always exists, so [init] succeeds; the state is created
    Pending with a deadline [_timeout] seconds after the whole second of
    the clock, and is dumped once. *)
Theorem mock_init_sets_relative_deadline w :
  _state w = None ->
  cache w !! self_task_id cfg = None ->
  let st := set_timeout (_timeout + py_int (time_now env (trace w)))
              (fresh_state cfg) in
  init cfg (MockTaskRunner.impl env cfg _timeout) w
  = (Done true,
     mkRunner (Some st) (_deque w) (_cleaned w)
       (<[self_task_id cfg := st]> (cache w)) (trace w ++ [CacheDump st])).
Proof.
  intros Hst Hc st. subst st.
  destruct w as [s dq c ch t]; simpl in Hst, Hc; subst s.
  unfold init, load_or_create. cbn [_state cache]. rewrite Hc.
  unfold init_checks, init_finally, MockTaskRunner.impl,
    MockTaskRunner.get_task, fresh_state.
  unfold_runner. cbn -[is_terminal].
  change (is_terminal Pending) with false. cbn.
  destruct (decide (0 = _timeout + py_int (time_now env t))%Z) as [Heq|Hne].
  - rewrite bool_decide_false by (intros Hn; by apply Hn). cbn. settle.
    by rewrite <- Heq.
  - rewrite bool_decide_true by done. cbn. by settle.
Qed.

End Mock.

(** ** Further scenarios, as instances of the theorems *)

Section MoreScenarios.
Import TaskRunner InferenceTaskRunner Scenario.

(** TaskCreated handled from Pending: nothing is recorded as in flight. *)
Lemma loop_never_in_flight_witness :
  let w' := snd (loop_run env_ok (inference env_ok) sched_created []
                   (runner_at (st7 Pending))) in
  (exists st', _state w' = Some st' /\ no_tx_in_flight st') /\
  exists delta, trace w' = trace (runner_at (st7 Pending)) ++ delta /\
    forall st', CacheDump st' ∈ delta -> no_tx_in_flight st'.
Proof.
  refine (loop_never_records_tx_in_flight env_ok cfg7 sched_created []
            (runner_at (st7 Pending)) (st7 Pending) _ _).
  - reflexivity.
  - split; reflexivity.
Defined.

Lemma loop_own_entry_witness :
  let w' := snd (loop_run env_ok (inference env_ok) sched_created []
                   (runner_at (st7 Pending))) in
  (exists st', _state w' = Some st' /\
     task_id st' = 7%Z /\ timeout st' = 1000%Z) /\
  forall k, k <> 7%Z -> cache w' !! k = cache (runner_at (st7 Pending)) !! k.
Proof.
  refine (loop_writes_only_its_own_entry env_ok cfg7 sched_created []
            (runner_at (st7 Pending)) (st7 Pending) _).
  reflexivity.
Defined.


Lemma loop_loses_no_event_witness :
  let out := loop_run env_ok (inference env_ok) sched_created []
               (runner_at (st7 Pending)) in
  exists d, trace (snd out) = trace (runner_at (st7 Pending)) ++ d /\
            accounted_for 1 d out.
Proof.
  refine (loop_loses_no_event env_ok cfg7 sched_created []
            (runner_at (st7 Pending)) 1 _).
  vm_compute. left.
Defined.


(** The receipt of the commitment is reverted for lack of gas. *)
Lemma other_revert_witness :
  fst (result_ready (env_revert "out of gas") cfg7 7 ["0xaa"; "0xbb"]
         ["out/7/a.png"; "out/7/b.png"] (runner_at (st7 Executing)))
  = Done tt.
Proof.
  refine (f_equal fst
            (other_revert_of_commitment_is_swallowed
               (env_revert "out of gas") cfg7 7 ["0xaa"; "0xbb"]
               ["out/7/a.png"; "out/7/b.png"] (runner_at (st7 Executing))
               (st7 Executing) [Byte.xaa; Byte.xbb] [Byte.xcc] [Byte.x01] H
               "out of gas" _ _ _ _ _ _ _ _)); try reflexivity.
  split; reflexivity.
Defined.

Lemma commitment_ready_needs_result_witness :
  fst (commitment_ready env_ok cfg7 7 (runner_at (st7 ResultUploaded)))
  = Raised (AssertionError
      "Task result not found when receive event TaskResultCommitmentsReady.").
Proof.
  refine (f_equal fst
            (commitment_ready_needs_result env_ok cfg7 7
               (runner_at (st7 ResultUploaded)) (st7 ResultUploaded) _ _ _));
    reflexivity.
Defined.

(** TaskSuccess on a node that is not the result node. *)
Lemma upload_precedes_report_witness :
  task_success env_ok cfg7 7 "0xother" (runner_at st7_disclosed)
  = (Done tt,
     mkRunner (Some (set_status Success st7_disclosed)) [] false
       (<[7%Z := set_status Success st7_disclosed]> {[ 7%Z := st7_disclosed ]})
       (dumped (set_status Success st7_disclosed))).
Proof.
  refine (upload_precedes_report env_ok cfg7 7 "0xother"
            (runner_at st7_disclosed) st7_disclosed _ _ _).
  - reflexivity.
  - reflexivity.
  - split; reflexivity.
Defined.


Lemma worker_failure_witness :
  fst (task_created
         (mkEnv (time_now env_ok) (chain_get_task env_ok)
            (chain_call env_ok) (tx_wait env_ok)
            (chain_cancel_task env_ok) (relay_get_task env_ok)
            (relay_upload_task_result env_ok) (celery_send_task env_ok)
            (fun _ _ _ => inl (OtherError "CUDA out of memory"))
            (make_result_commitments env_ok)
            (queue_ack env_ok) (queue_no_ack env_ok) (queue_put env_ok)
            (delete_result_files env_ok) (retry_attempts env_ok))
         cfg7 7 2 (runner_at (st7 Pending)))
  = Raised (OtherError "CUDA out of memory").
Proof.
  refine (f_equal fst
            (worker_failure_leaves_task_pending _ cfg7 7 2
               (runner_at (st7 Pending)) (st7 Pending) (mkRelayTask 7 "{}")
               (OtherError "CUDA out of memory") _ _ _ _ _));
    try reflexivity.
  - intros t. reflexivity.
  - intros _. discriminate.
Defined.

Lemma executing_before_enqueue_witness :
  fst (task_created env_ok cfg7 7 2 (runner_at (st7 Pending))) = Done None.
Proof.
  refine (f_equal fst
            (executing_is_persisted_before_result_is_enqueued env_ok cfg7 7 2
               (runner_at (st7 Pending)) (st7 Pending) (mkRelayTask 7 "{}")
               ["0xaa"; "0xbb"] ["out/7/a.png"; "out/7/b.png"]
               _ _ _ _ _ _)); reflexivity.
Defined.


Lemma mock_in_order_witness :
  let w' :=
    fold_left (fun w event => snd (process_event (mock env_ok) event w))
      [TaskCreated 7 2; TaskResultReady 7 ["0xaa"; "0xbb"] ["a"; "b"];
       TaskResultCommitmentsReady 7; TaskSuccess 7 "0xother"]
      (runner_at (st7 Pending)) in
  exists final,
    _state w' = Some final /\ status final = Success /\
    result final = [Byte.xaa; Byte.xbb] /\
    external_calls (drop 0 (trace w')) = [].
Proof.
  intros w'.
  destruct (mock_events_in_order_reach_success env_ok cfg7 900 7 2
              ["0xaa"; "0xbb"] ["a"; "b"] "0xother" (runner_at (st7 Pending))
              (st7 Pending) [Byte.xaa; Byte.xbb] eq_refl eq_refl eq_refl)
    as (H1 & _ & H3).
  eexists. split; [exact H1|]. split; [reflexivity|]. split; [reflexivity|].
  exact H3.
Defined.

Lemma mock_bad_hash_witness :
  fst (MockTaskRunner.result_ready 7 ["0xzz"] ["a"] (runner_at (st7 Executing)))
  = Raised (ValueError "non-hexadecimal number found in fromhex() arg").
Proof.
  refine (f_equal fst
            (mock_result_ready_rejects_bad_hash 7 ["0xzz"] ["a"]
               (runner_at (st7 Executing)) (st7 Executing) _ _ _));
    reflexivity.
Defined.

Lemma mock_init_witness :
  fst (init cfg7 (mock env_ok) runner_new) = Done true.
Proof.
  refine (f_equal fst
            (mock_init_sets_relative_deadline env_ok cfg7 900 runner_new _ _));
    reflexivity.
Defined.

End MoreScenarios.
